(** * Work Memory Helper: a shallow embedding of [app.py]

    The persistent part of the program is an SQLite database with three
    tables ([projects], [tasks], [notes]) accessed through SQLAlchemy's ORM.
    Each table is a finite map from the integer primary key to the remaining
    columns; a request handler is a computation in a small state-and-error
    monad over the database and the wall clock.  Timestamps are integers
    (microseconds), strings are sequences of code points below 256. *)

From Stdlib Require Import ZArith Ascii String.
From stdpp Require Import base option list sorting gmap strings fin_maps.

Open Scope string_scope.
Open Scope Z_scope.

(** ** Python values *)

(** Truthiness, as used by [or], [not] and [if] in the handlers. *)
Class Truthy (A : Type) := truthy : A → bool.

#[global] Instance string_truthy : Truthy string :=
  λ s, match s with EmptyString => false | String _ _ => true end.
#[global] Instance int_truthy : Truthy Z :=
  λ z, negb (Z.eqb z 0).
(** [None] is falsy; any other value has the truth value of its content. *)
#[global] Instance optional_truthy `{Truthy A} : Truthy (option A) :=
  λ o, match o with Some v => truthy v | None => false end.

(** [x or d], for a field [x] that may hold [None]. *)
Definition py_or {A} `{Truthy A} (x : option A) (d : A) : A :=
  match x with
  | Some v => if truthy v then v else d
  | None => d
  end.

(** [str.isspace] on one character, for code points below 256. *)
Definition isspace (c : ascii) : bool :=
  let n := N_of_ascii c in
  ((9 <=? n) && (n <=? 13) || (28 <=? n) && (n <=? 32)
   || (n =? 133) || (n =? 160))%N.

Fixpoint lstrip (s : string) : string :=
  match s with
  | EmptyString => EmptyString
  | String c s' => if isspace c then lstrip s' else s
  end.

Fixpoint rstrip (s : string) : string :=
  match s with
  | EmptyString => EmptyString
  | String c s' =>
      match rstrip s' with
      | EmptyString => if isspace c then EmptyString else String c EmptyString
      | r => String c r
      end
  end.

(** [s.strip()] *)
Definition strip (s : string) : string := rstrip (lstrip s).

Fixpoint chars (s : string) : list ascii :=
  match s with
  | EmptyString => []
  | String c s' => c :: chars s'
  end.

(** ** Models (the three tables) *)

(** Rows are keyed by [id] in the table; the records hold the other columns. *)
Module Project.
Record t := mk { name : string; created_at : Z }.
End Project.

Module Task.
Record t := mk {
  title : string;
  description : string;
  status : string;
  next_action : string;
  priority : Z;
  project_id : option Z;
  created_at : Z;
  updated_at : Z;
  last_touched_at : Z
}.

Definition set_title (v : string) (r : t) : t :=
  mk v (description r) (status r) (next_action r) (priority r)
     (project_id r) (created_at r) (updated_at r) (last_touched_at r).
Definition set_description (v : string) (r : t) : t :=
  mk (title r) v (status r) (next_action r) (priority r)
     (project_id r) (created_at r) (updated_at r) (last_touched_at r).
Definition set_status (v : string) (r : t) : t :=
  mk (title r) (description r) v (next_action r) (priority r)
     (project_id r) (created_at r) (updated_at r) (last_touched_at r).
Definition set_next_action (v : string) (r : t) : t :=
  mk (title r) (description r) (status r) v (priority r)
     (project_id r) (created_at r) (updated_at r) (last_touched_at r).
Definition set_priority (v : Z) (r : t) : t :=
  mk (title r) (description r) (status r) (next_action r) v
     (project_id r) (created_at r) (updated_at r) (last_touched_at r).
Definition set_project_id (v : option Z) (r : t) : t :=
  mk (title r) (description r) (status r) (next_action r) (priority r)
     v (created_at r) (updated_at r) (last_touched_at r).
Definition set_updated_at (v : Z) (r : t) : t :=
  mk (title r) (description r) (status r) (next_action r) (priority r)
     (project_id r) (created_at r) v (last_touched_at r).
Definition set_last_touched_at (v : Z) (r : t) : t :=
  mk (title r) (description r) (status r) (next_action r) (priority r)
     (project_id r) (created_at r) (updated_at r) v.

#[global] Instance eq_dec : EqDecision t.
Proof. solve_decision. Defined.
End Task.

Module Note.
Record t := mk {
  task_id : Z;
  content : string;
  created_at : Z;
  kind : string
}.
End Note.

Record DB := mkDB {
  projects : gmap Z Project.t;
  tasks : gmap Z Task.t;
  notes : gmap Z Note.t
}.

Definition empty_db : DB := mkDB ∅ ∅ ∅.

(** The state a handler runs in: the database and the number of times
    [datetime.utcnow] has been read so far. *)
Record World := mkWorld { db : DB; ticks : nat }.

(** ** Schemas *)

(** [TaskIn]. The four defaulted fields are guarded by [or] in
    [create_task], so they are given as values that may be [None]. *)
Record TaskIn := mkTaskIn {
  in_title : string;
  in_description : option string;
  in_next_action : option string;
  in_priority : option Z;
  in_status : option string;
  in_project_name : option string
}.

(** [TaskPatch]: [None] is an omitted field. *)
Record TaskPatch := mkTaskPatch {
  patch_title : option string;
  patch_description : option string;
  patch_next_action : option string;
  patch_priority : option Z;
  patch_status : option string;
  patch_project_name : option string
}.

(** [NoteIn] *)
Record NoteIn := mkNoteIn {
  in_task_id : Z;
  in_content : string;
  in_kind : option string
}.

(** ** Errors and the handler monad *)

(** What a request can fail with: an [HTTPException] raised by a handler, or
    the validation error FastAPI raises (and answers with status 422) when
    the body does not fit the handler's schema. *)
Inductive Error :=
| HTTPException (status_code : Z) (detail : string)
| RequestValidationError.

Inductive Result (A : Type) :=
| Ok (a : A)
| Raise (e : Error).
Arguments Ok {A} a.
Arguments Raise {A} e.

Definition task_not_found : Error := HTTPException 404 "Task not found".
Definition note_not_found : Error := HTTPException 404 "Note not found".
Definition no_active_task : Error :=
  HTTPException 404 "No active tasks yet. Create one at / or POST /api/tasks.".

Definition is_validation_error (e : Error) : Prop :=
  e = RequestValidationError.

Definition M (A : Type) : Type := World → Result A * World.

#[global] Instance M_ret : MRet M := λ A a w, (Ok a, w).
#[global] Instance M_bind : MBind M := λ A B f m w,
  match m w with
  | (Ok a, w') => f a w'
  | (Raise e, w') => (Raise e, w')
  end.

Definition raise {A} (e : Error) : M A := λ w, (Raise e, w).
Definition get_db : M DB := λ w, (Ok (db w), w).
Definition put_db (d : DB) : M unit := λ w, (Ok tt, mkWorld d (ticks w)).

(** ** Table primitives *)

(** The largest key of a table. *)
Definition max_key {A} (m : gmap Z A) : option Z :=
  map_fold (λ k _ acc, Some (match acc with Some a => Z.max k a | None => k end))
           None m.

(** The rowid SQLite gives to an inserted row: one more than the largest
    rowid in the table, 1 for an empty table. *)
Definition next_id {A} (m : gmap Z A) : Z :=
  match max_key m with Some k => k + 1 | None => 1 end.

(** [ORDER BY last_touched_at DESC] and [ORDER BY created_at DESC]: the
    relation holds of [a] and [b] when row [a] may come before row [b].  The
    order of rows with equal timestamps is left to the storage. *)
Definition touched_later (a b : Z * Task.t) : Prop :=
  Task.last_touched_at b.2 ≤ Task.last_touched_at a.2.
Definition created_later (a b : Z * Note.t) : Prop :=
  Note.created_at b.2 ≤ Note.created_at a.2.

#[global] Instance touched_later_dec : RelDecision touched_later.
Proof. intros a b. unfold touched_later. apply _. Defined.
#[global] Instance created_later_dec : RelDecision created_later.
Proof. intros a b. unfold created_later. apply _. Defined.

Definition active_statuses : list string := ["in_progress"; "todo"; "paused"].

Definition is_active (t : Task.t) : bool :=
  bool_decide (Task.status t ∈ active_statuses).

(** [LIMIT n]: the first [n] rows; SQLite takes a negative [n] as no limit. *)
Definition limit_rows {A} (n : Z) (l : list A) : list A :=
  if n <? 0 then l else take (Z.to_nat n) l.

(** [db.query(Note).filter(Note.task_id == id).order_by(Note.created_at.desc())] *)
Definition notes_of (d : DB) (id : Z) : list (Z * Note.t) :=
  merge_sort created_later
    (filter (λ r, Note.task_id r.2 = id) (map_to_list (notes d))).

(** [db.query(Project).filter(Project.name == name).first()] *)
Definition project_named (d : DB) (name : string) : option (Z * Project.t) :=
  head (filter (λ r, Project.name r.2 = name) (map_to_list (projects d))).

(** ** The session *)

(** A [Task] instance attached to the request's session: its primary key,
    the column values last loaded from its row ([None] once a commit has
    expired the instance) and its current attribute values.  The unit of work
    compares the two when it flushes. *)
Record TaskObj := mkObj {
  pk : Z;
  loaded : option Task.t;
  attrs : Task.t
}.

Section Handlers.

(** [clock n] is the value of the [n]-th reading of [datetime.utcnow]. *)
Variable clock : nat → Z.

Definition utcnow : M Z :=
  λ w, (Ok (clock (ticks w)), mkWorld (db w) (S (ticks w))).

(** Flushing a [Task] instance.  An UPDATE is emitted only when some attribute
    was set to a value other than the loaded one; an attribute set on an
    expired instance has no loaded value and is always written.  Every UPDATE
    of a [tasks] row also sets [updated_at] ([onupdate=datetime.utcnow]). *)
Definition flush (o : TaskObj) : M Task.t :=
  if decide (loaded o = Some (attrs o)) then mret (attrs o)
  else
    now ← utcnow;
    d ← get_db;
    let r := Task.set_updated_at now (attrs o) in
    put_db (mkDB (projects d) (<[pk o := r]> (tasks d)) (notes d));;
    mret r.

(** [db.commit()] with the instance [o] in the session: flush, then expire. *)
Definition commit (o : TaskObj) : M TaskObj :=
  r ← flush o;
  mret (mkObj (pk o) None r).

(** [db.add(x); db.commit(); db.refresh(x)] for a new [Project], [Task] or
    [Note]: the INSERT fills each timestamp column from its own reading of
    [default=datetime.utcnow]. *)
Definition insert_project (name : string) : M Z :=
  c ← utcnow;
  d ← get_db;
  let i := next_id (projects d) in
  put_db (mkDB (<[i := Project.mk name c]> (projects d)) (tasks d) (notes d));;
  mret i.

Definition insert_task (title description status next_action : string)
    (priority : Z) (project : option Z) : M TaskObj :=
  c ← utcnow;
  u ← utcnow;
  l ← utcnow;
  d ← get_db;
  let i := next_id (tasks d) in
  let r := Task.mk title description status next_action priority project c u l in
  put_db (mkDB (projects d) (<[i := r]> (tasks d)) (notes d));;
  mret (mkObj i (Some r) r).

Definition insert_note (task_id : Z) (content kind : string) : M (Z * Note.t) :=
  c ← utcnow;
  d ← get_db;
  let i := next_id (notes d) in
  let n := Note.mk task_id content c kind in
  put_db (mkDB (projects d) (tasks d) (<[i := n]> (notes d)));;
  mret (i, n).

(** ** Helpers *)

(** [db] is the session, given by the [Task] instance it holds, if any; the
    commit of a new project flushes and expires that instance too. *)
Definition get_or_create_project (db : option TaskObj) (name : option string)
    : M (option Z * option TaskObj) :=
  match name with
  | None => mret (None, db)
  | Some n =>
      if negb (truthy n) then mret (None, db)
      else
        d ← get_db;
        match project_named d n with
        | Some proj => mret (Some proj.1, db)
        | None =>
            i ← insert_project n;
            db' ← match db with
                  | Some o => o' ← commit o; mret (Some o')
                  | None => mret None
                  end;
            mret (Some i, db')
        end
  end.

Definition touch_task (task : TaskObj) : M TaskObj :=
  now ← utcnow;
  r ← flush (mkObj (pk task) (loaded task)
               (Task.set_last_touched_at now (attrs task)));
  mret (mkObj (pk task) (Some r) r).

(** ** Routes *)

(** The page returned shows the id and title of the saved task. *)
Definition quick_capture (project_name : option string)
    (title description next_action : string) : M (Z * Task.t) :=
  '(proj, _) ← get_or_create_project None project_name;
  task ← insert_task title description "in_progress" next_action 2 proj;
  task ← (if truthy (strip description)
          then insert_note (pk task) description "snapshot";; commit task
          else mret task);
  task ← touch_task task;
  mret (pk task, attrs task).

Definition create_task (body : TaskIn) : M (Z * Task.t) :=
  '(proj, _) ← get_or_create_project None (in_project_name body);
  task ← insert_task (in_title body)
            (py_or (in_description body) "")
            (py_or (in_status body) "in_progress")
            (py_or (in_next_action body) "")
            (py_or (in_priority body) 2)
            proj;
  task ← touch_task task;
  mret (pk task, attrs task).

Definition get_task (task_id : Z) : M (Z * Task.t) :=
  d ← get_db;
  match tasks d !! task_id with
  | None => raise task_not_found
  | Some r => mret (task_id, r)
  end.

Definition apply_patch (body : TaskPatch) (r : Task.t) : Task.t :=
  let r := match patch_title body with Some v => Task.set_title v r | None => r end in
  let r := match patch_description body with Some v => Task.set_description v r | None => r end in
  let r := match patch_next_action body with Some v => Task.set_next_action v r | None => r end in
  let r := match patch_priority body with Some v => Task.set_priority v r | None => r end in
  match patch_status body with Some v => Task.set_status v r | None => r end.

Definition update_task (task_id : Z) (body : TaskPatch) : M (Z * Task.t) :=
  d ← get_db;
  match tasks d !! task_id with
  | None => raise task_not_found
  | Some r =>
      let task := mkObj task_id (Some r) (apply_patch body r) in
      task ← match patch_project_name body with
             | Some n =>
                 '(proj, s) ← get_or_create_project (Some task) (Some n);
                 let task := default task s in
                 mret (mkObj (pk task) (loaded task)
                         (Task.set_project_id proj (attrs task)))
             | None => mret task
             end;
      task ← touch_task task;
      mret (pk task, attrs task)
  end.

Definition create_note (body : NoteIn) : M (Z * Note.t) :=
  d ← get_db;
  match tasks d !! in_task_id body with
  | None => raise task_not_found
  | Some r =>
      let task := mkObj (in_task_id body) (Some r) r in
      note ← insert_note (pk task) (in_content body) (py_or (in_kind body) "note");
      task ← commit task;
      touch_task task;;
      mret note
  end.

Definition list_notes (task_id : Z) (limit : Z) : M (list (Z * Note.t)) :=
  d ← get_db;
  mret (limit_rows limit (notes_of d task_id)).

Definition resume : M ((Z * Task.t) * list (Z * Note.t)) :=
  d ← get_db;
  match head (merge_sort touched_later
                (filter (λ r, is_active r.2 = true) (map_to_list (tasks d)))) with
  | None => raise no_active_task
  | Some task => mret (task, limit_rows 5 (notes_of d task.1))
  end.

(** [db.delete(task)] cascades to the notes of the task's [notes]
    relationship, the rows with [Note.task_id == task.id]. *)
Definition delete_task (task_id : Z) : M unit :=
  d ← get_db;
  match tasks d !! task_id with
  | None => raise task_not_found
  | Some _ =>
      put_db (mkDB (projects d) (delete task_id (tasks d))
                (filter (λ r, Note.task_id r.2 ≠ task_id) (notes d)))
  end.

Definition delete_note (note_id : Z) : M unit :=
  d ← get_db;
  match notes d !! note_id with
  | None => raise note_not_found
  | Some _ => put_db (mkDB (projects d) (tasks d) (delete note_id (notes d)))
  end.

(** [ProjectIn] constrains [name] to 1..200 characters; a body that fails the
    schema is refused before the handler runs. *)
Definition create_project (name : string) : M (option Z) :=
  if bool_decide (1 ≤ String.length name ≤ 200)%nat
  then '(proj, _) ← get_or_create_project None (Some name); mret proj
  else raise RequestValidationError.

End Handlers.

(** ** Requests and runs *)

Inductive Request :=
| QuickCapture (project_name : option string) (title description next_action : string)
| CreateProject (name : string)
| CreateTask (body : TaskIn)
| GetTask (task_id : Z)
| UpdateTask (task_id : Z) (body : TaskPatch)
| CreateNote (body : NoteIn)
| ListNotes (task_id : Z) (limit : Z)
| Resume
| DeleteTask (task_id : Z)
| DeleteNote (note_id : Z).

(** The world after one request has been served. *)
Definition handle (clock : nat → Z) (req : Request) (w : World) : World :=
  match req with
  | QuickCapture p t d n => (quick_capture clock p t d n w).2
  | CreateProject n => (create_project clock n w).2
  | CreateTask body => (create_task clock body w).2
  | GetTask i => (get_task i w).2
  | UpdateTask i body => (update_task clock i body w).2
  | CreateNote body => (create_note clock body w).2
  | ListNotes i l => (list_notes i l w).2
  | Resume => (resume w).2
  | DeleteTask i => (delete_task i w).2
  | DeleteNote i => (delete_note i w).2
  end.

Definition serve (clock : nat → Z) (reqs : list Request) (w : World) : World :=
  foldl (λ w req, handle clock req w) w reqs.

(** Requests that edit a task or add a note to one. *)
Definition is_activity (req : Request) : bool :=
  match req with
  | UpdateTask _ _ | CreateNote _ => true
  | _ => false
  end.

(** A fresh database file, before the first reading of the clock. *)
Definition initial_world : World := mkWorld empty_db 0.

(** [z] is a reading of the clock taken between worlds [w] and [w']. *)
Definition read_during (clock : nat → Z) (w w' : World) (z : Z) : Prop :=
  ∃ k : nat, (ticks w ≤ k < ticks w')%nat ∧ z = clock k.

(** Some character of [s] is not white space. *)
Definition has_non_space (s : string) : bool :=
  existsb (λ c, negb (isspace c)) (chars s).

(** The statuses the specification lists as resumable. *)
Definition resumable (t : Task.t) : Prop :=
  Task.status t = "todo" ∨ Task.status t = "in_progress" ∨ Task.status t = "paused".

(** An example clock that advances by one at every reading. *)
Definition ex_clock (n : nat) : Z := 1000 + Z.of_nat n.

(** Between [w] and [w'] the clock did not go back, and every task of [w']
    is either a row of [w] or was touched at a reading taken in between. *)
Definition touches (clock : nat → Z) (w w' : World) : Prop :=
  (ticks w ≤ ticks w')%nat
  ∧ ∀ j t', tasks (db w') !! j = Some t' →
      tasks (db w) !! j = Some t'
      ∨ read_during clock w w' (Task.last_touched_at t').

(** Every stored [last_touched_at] is a reading the clock has already given. *)
Definition stamped_in_past (clock : nat → Z) (w : World) : Prop :=
  ∀ i t, tasks (db w) !! i = Some t →
    ∃ k : nat, (k < ticks w)%nat ∧ Task.last_touched_at t = clock k.

(** The notes of [w'] are those of [w] and exactly one more: a snapshot note
    of task [id] whose content is [description]. *)
Definition one_snapshot_added (w w' : World) (id : Z) (description : string)
    : Prop :=
  ∃ i c, notes (db w) !! i = None
         ∧ notes (db w')
           = <[i := Note.mk id description c "snapshot"]> (notes (db w)).

(** An example world: one task, created through the API on a fresh database. *)
Definition ex_world : World :=
  (create_task ex_clock
     (mkTaskIn "Fix token expiry" None None None None None) initial_world).2.

(** ** Listings *)

(** [ORDER BY Project.created_at DESC] *)
Definition project_created_later (a b : Z * Project.t) : Prop :=
  Project.created_at b.2 ≤ Project.created_at a.2.

#[global] Instance project_created_later_dec : RelDecision project_created_later.
Proof. intros a b. unfold project_created_later. apply _. Defined.

Definition list_projects : M (list (Z * Project.t)) :=
  d ← get_db;
  mret (merge_sort project_created_later (map_to_list (projects d))).

(** The name of the [projects] row an outer join on [project_id] pairs a task
    with; [None] stands for the NULL of a task without such a row. *)
Definition joined_project_name (d : DB) (t : Task.t) : option string :=
  match Task.project_id t with
  | Some p => Project.name <$> projects d !! p
  | None => None
  end.

Definition list_tasks (status project : option string)
    : M (list (Z * Task.t)) :=
  d ← get_db;
  let q := map_to_list (tasks d) in
  let q := if truthy status
           then filter (λ r, Some (Task.status r.2) = status) q else q in
  let q := if truthy project
           then filter (λ r, joined_project_name d r.2 = project) q else q in
  mret (merge_sort touched_later q).

(** ** The answer to a request *)

Definition error_of {A} (r : Result A) : option Error :=
  match r with Ok _ => None | Raise e => Some e end.

(** The error a request is answered with, if any. *)
Definition response_error (clock : nat → Z) (req : Request) (w : World)
    : option Error :=
  match req with
  | QuickCapture p t d n => error_of (quick_capture clock p t d n w).1
  | CreateProject n => error_of (create_project clock n w).1
  | CreateTask body => error_of (create_task clock body w).1
  | GetTask i => error_of (get_task i w).1
  | UpdateTask i body => error_of (update_task clock i body w).1
  | CreateNote body => error_of (create_note clock body w).1
  | ListNotes i l => error_of (list_notes i l w).1
  | Resume => error_of (resume w).1
  | DeleteTask i => error_of (delete_task i w).1
  | DeleteNote i => error_of (delete_note i w).1
  end.

(** ** Invariants of the database *)

(** No two rows of [projects] have the same name. *)
Definition unique_names (d : DB) : Prop :=
  ∀ i j p q, projects d !! i = Some p → projects d !! j = Some q →
    Project.name p = Project.name q → i = j.

(** Every note belongs to a task of the table and every task with a project
    to a project of the table. *)
Definition references_hold (d : DB) : Prop :=
  (∀ i n, notes d !! i = Some n → is_Some (tasks d !! Note.task_id n))
  ∧ (∀ i t p, tasks d !! i = Some t → Task.project_id t = Some p →
       is_Some (projects d !! p)).

(** Every task was created, then touched, then written: its three timestamps
    are readings of the clock already taken, [updated_at] the one right after
    [last_touched_at]. *)
Definition task_stamps (clock : nat → Z) (w : World) : Prop :=
  ∀ i t, tasks (db w) !! i = Some t →
    ∃ c m : nat, (c < m)%nat ∧ (S m < ticks w)%nat
      ∧ Task.created_at t = clock c
      ∧ Task.last_touched_at t = clock m
      ∧ Task.updated_at t = clock (S m).

(** Every note was created at a reading of the clock already taken. *)
Definition note_stamps (clock : nat → Z) (w : World) : Prop :=
  ∀ i n, notes (db w) !! i = Some n →
    ∃ k : nat, (k < ticks w)%nat ∧ Note.created_at n = clock k.

(** ** The pages' scripts *)

Definition quote_char : ascii := ascii_of_nat 34.

(** The character class of the pattern both escaping functions replace. *)
Definition special (c : ascii) : bool :=
  bool_decide (c ∈ ["&"%char; "<"%char; ">"%char; quote_char; "'"%char]).

(** [s.replace(pattern, f)] with the global flag: every character of the
    class is replaced by what [f] returns for it. *)
Fixpoint replace_special (f : ascii → string) (s : string) : string :=
  match s with
  | EmptyString => EmptyString
  | String c s' =>
      (if special c then f c else String c EmptyString)
        +:+ replace_special f s'
  end.

(** The object literal [escapeHtml] (home page) and [esc] (resume page) index
    with the matched character. *)
Definition entities : list (ascii * string) :=
  [("&"%char, "&amp;"); ("<"%char, "&lt;"); (">"%char, "&gt;");
   (quote_char, "&quot;"); ("'"%char, "&#039;")].

Fixpoint property_of (o : list (ascii * string)) (c : ascii) : option string :=
  match o with
  | [] => None
  | (k, v) :: o' => if decide (k = c) then Some v else property_of o' c
  end.

(** [escapeHtml(s)]; [None] is a null or undefined argument, and a missing
    property would be written out as "undefined". *)
Definition escapeHtml (s : option string) : string :=
  replace_special (λ c, default "undefined" (property_of entities c))
    (default "" s).

(** [esc(s)] of the task page, whose replacement is a [switch]. *)
Definition esc (s : option string) : string :=
  replace_special
    (λ c, if decide (c = "&"%char) then "&amp;"
          else if decide (c = "<"%char) then "&lt;"
          else if decide (c = ">"%char) then "&gt;"
          else if decide (c = quote_char) then "&quot;"
          else if decide (c = "'"%char) then "&#039;"
          else String c EmptyString)
    (default "" s).

(** No note is newer than the last touch of its task. *)
Definition notes_before_touch (d : DB) : Prop :=
  ∀ i n t, notes d !! i = Some n → tasks d !! Note.task_id n = Some t →
    Note.created_at n ≤ Task.last_touched_at t.

(** * Properties *)

(** ** Strings *)

Lemma rstrip_empty (s : string) :
  rstrip s = "" ↔ forallb isspace (chars s) = true.
Proof.
  induction s as [|c s IH]; simpl; [done|].
  destruct (rstrip s) eqn:E.
  - destruct (isspace c); simpl; [|split; discriminate].
    split; [intros _; by apply IH | done].
  - split; [discriminate|].
    intros [_ H]%andb_true_iff. apply IH in H. discriminate.
Qed.

Lemma lstrip_chars (s : string) :
  forallb isspace (chars (lstrip s)) = forallb isspace (chars s).
Proof.
  induction s as [|c s IH]; simpl; [done|].
  destruct (isspace c) eqn:E; simpl; [done | by rewrite E].
Qed.

(** A stripped string is non-empty exactly when the string has a character
    that is not white space. *)
Lemma truthy_strip (s : string) : truthy (strip s) = has_non_space s.
Proof.
  unfold has_non_space, strip.
  destruct (forallb isspace (chars s)) eqn:E.
  - pose proof E as E'. rewrite <- lstrip_chars in E'.
    apply rstrip_empty in E' as ->. simpl.
    symmetry. apply not_true_is_false. intros (c & Hc & Hs)%existsb_exists.
    apply negb_true_iff in Hs.
    assert (isspace c = true) by (eapply forallb_forall; eauto). congruence.
  - destruct (rstrip (lstrip s)) eqn:R.
    + apply rstrip_empty in R. rewrite lstrip_chars in R. congruence.
    + simpl. symmetry.
      assert (¬ forallb isspace (chars s) = true) as N by congruence.
      rewrite forallb_forall in N.
      destruct (existsb (λ c, negb (isspace c)) (chars s)) eqn:X; [done|].
      exfalso. apply N. intros c Hc.
      destruct (isspace c) eqn:Ec; [done|].
      assert (existsb (λ c, negb (isspace c)) (chars s) = true); [|congruence].
      apply existsb_exists. exists c. by rewrite Ec.
Qed.

(** ** Tables *)

Lemma max_key_bound {A} (m : gmap Z A) (k : Z) :
  is_Some (m !! k) → ∃ mx, max_key m = Some mx ∧ k ≤ mx.
Proof.
  unfold max_key.
  apply (map_fold_weak_ind
    (λ (r : option Z) (m : gmap Z A),
       is_Some (m !! k) → ∃ mx, r = Some mx ∧ k ≤ mx)).
  - rewrite lookup_empty. by intros [? ?].
  - intros i x m' r Hi IH Hk.
    destruct (decide (i = k)) as [->|Hne].
    + destruct r as [a|]; eexists; split; [done| lia |done| lia].
    + rewrite lookup_insert_ne in Hk by done.
      destruct (IH Hk) as (mx & -> & Hle). eexists; split; [done|lia].
Qed.

Lemma next_id_fresh {A} (m : gmap Z A) : m !! next_id m = None.
Proof.
  destruct (m !! next_id m) eqn:E; [|done].
  destruct (max_key_bound m (next_id m)) as (mx & Hmx & Hle); [by eexists|].
  unfold next_id in Hle. rewrite Hmx in Hle. lia.
Qed.

(** ** Ordering *)

#[global] Instance touched_later_trans : Transitive touched_later.
Proof. unfold touched_later. intros ???. lia. Qed.
#[global] Instance touched_later_total : Total touched_later.
Proof. unfold touched_later. intros ??. lia. Qed.
#[global] Instance created_later_trans : Transitive created_later.
Proof. unfold created_later. intros ???. lia. Qed.
#[global] Instance created_later_total : Total created_later.
Proof. unfold created_later. intros ??. lia. Qed.

Section Sorted.
Context {A : Type} (R : relation A) `{!RelDecision R, !Transitive R, !Total R}.

Lemma head_merge_sort_None (l : list A) :
  head (merge_sort R l) = None ↔ l = [].
Proof.
  rewrite head_None. split.
  - intros E. apply Permutation_nil_r. by rewrite <- (merge_sort_Permutation R), E.
  - intros ->. apply Permutation_nil_r. apply merge_sort_Permutation.
Qed.

(** The first row of an ordered query is in the table and precedes all rows. *)
Lemma head_merge_sort_Some (l : list A) (x : A) :
  head (merge_sort R l) = Some x → x ∈ l ∧ ∀ y, y ∈ l → R x y.
Proof.
  intros [l' E]%head_Some.
  pose proof (StronglySorted_merge_sort R l) as S.
  pose proof (merge_sort_Permutation R l) as P.
  rewrite E in S, P. split.
  - rewrite <- P. left.
  - intros y Hy. rewrite <- P in Hy.
    apply StronglySorted_inv in S as [_ F].
    apply elem_of_cons in Hy as [Exy|Hy].
    + rewrite Exy. destruct (total R x x); done.
    + by eapply Forall_forall in F.
Qed.

(** A [LIMIT n] prefix of an ordered query, with the rows it leaves out. *)
Lemma take_merge_sort (n : nat) (l : list A) :
  ∃ rest, (take n (merge_sort R l) ++ rest)%list ≡ₚ l
          ∧ StronglySorted R (take n (merge_sort R l) ++ rest)%list
          ∧ length (take n (merge_sort R l)) = (n `min` length l)%nat.
Proof.
  exists (drop n (merge_sort R l)). rewrite take_drop. split_and!.
  - apply merge_sort_Permutation.
  - by apply StronglySorted_merge_sort.
  - by rewrite length_take, (merge_sort_Permutation R l).
Qed.
End Sorted.

(** ** Resume *)

Lemma is_active_resumable (t : Task.t) : is_active t = true ↔ resumable t.
Proof.
  unfold is_active, resumable, active_statuses.
  rewrite bool_decide_eq_true, !elem_of_cons, elem_of_nil. tauto.
Qed.

Lemma notes_of_limit (d : DB) (id : Z) (n : nat) :
  ∃ older : list (Z * Note.t),
    (∀ i x, (i, x) ∈ (take n (notes_of d id) ++ older)%list
            ↔ notes d !! i = Some x ∧ Note.task_id x = id)
    ∧ NoDup (take n (notes_of d id) ++ older)%list
    ∧ StronglySorted created_later (take n (notes_of d id) ++ older)%list
    ∧ length (take n (notes_of d id))
      = (n `min` length (take n (notes_of d id) ++ older)%list)%nat.
Proof.
  unfold notes_of.
  destruct (take_merge_sort created_later n
              (filter (λ r, Note.task_id r.2 = id) (map_to_list (notes d))))
    as (older & P & S & L).
  exists older. split_and!.
  - intros i x. rewrite P, list_elem_of_filter, elem_of_map_to_list. simpl. tauto.
  - rewrite P. apply NoDup_filter, NoDup_map_to_list.
  - done.
  - by rewrite P.
Qed.

(** C1. [resume] fails with the "no active task" error exactly when no task
    has one of the statuses todo, in_progress, paused.  Otherwise it returns
    a task of the table with such a status whose [last_touched_at] is
    greatest among all such tasks, with at most 5 notes: the notes returned,
    followed by the notes of the task that are left out, are all the notes of
    that task, without repetition, in descending order of [created_at]. *)
Theorem resume_selects_latest_active (w : World) :
  match (resume w).1 with
  | Raise e =>
      e = no_active_task
      ∧ ∀ i t, tasks (db w) !! i = Some t → ¬ resumable t
  | Ok (task, latest_notes) =>
      tasks (db w) !! task.1 = Some task.2
      ∧ resumable task.2
      ∧ (∀ i t, tasks (db w) !! i = Some t → resumable t →
           Task.last_touched_at t ≤ Task.last_touched_at task.2)
      ∧ (length latest_notes ≤ 5)%nat
      ∧ ∃ older : list (Z * Note.t),
          (∀ i n, (i, n) ∈ (latest_notes ++ older)%list
                  ↔ notes (db w) !! i = Some n ∧ Note.task_id n = task.1)
          ∧ NoDup (latest_notes ++ older)%list
          ∧ StronglySorted created_later (latest_notes ++ older)%list
          ∧ length latest_notes
            = (5 `min` length (latest_notes ++ older)%list)%nat
  end.
Proof.
  unfold resume, mbind, M_bind, get_db, mret, M_ret, raise. simpl.
  change (limit_rows 5) with (take (A := Z * Note.t) 5).
  destruct (head _) as [[j u]|] eqn:E; simpl.
  - apply head_merge_sort_Some in E as [Hin Hmax]; [|apply _..].
    apply list_elem_of_filter in Hin as [Hact Hin]. simpl in Hact.
    apply elem_of_map_to_list in Hin. split_and!.
    + done.
    + by apply is_active_resumable.
    + intros i t Hi Hr.
      apply (Hmax (i, t)). apply list_elem_of_filter. split.
      * by apply is_active_resumable.
      * by apply elem_of_map_to_list.
    + rewrite length_take. lia.
    + apply notes_of_limit.
  - split; [done|]. intros i t Hi Hr.
    apply head_merge_sort_None in E; [|apply _..].
    assert ((i, t) ∈ filter (λ r : Z * Task.t, is_active r.2 = true)
                       (map_to_list (tasks (db w)))) as Hin.
    { apply list_elem_of_filter. split.
      - by apply is_active_resumable.
      - by apply elem_of_map_to_list. }
    rewrite E in Hin. by apply elem_of_nil in Hin.
Qed.

Lemma resume_world (w : World) : (resume w).2 = w.
Proof.
  unfold resume, mbind, M_bind, get_db, mret, M_ret, raise. simpl.
  by destruct (head _).
Qed.

(** C8. [resume] leaves the world as it found it (database and clock), so a
    second call right after the first returns the same output. *)
Theorem resume_read_only (w : World) :
  (resume w).2 = w ∧ resume (resume w).2 = resume w.
Proof. split; [apply resume_world | by rewrite resume_world]. Qed.

(** ** Running the handlers *)

#[local] Arguments flush : simpl never.
#[local] Arguments commit : simpl never.
#[local] Arguments touch_task : simpl never.
#[local] Arguments insert_project : simpl never.
#[local] Arguments insert_task : simpl never.
#[local] Arguments insert_note : simpl never.
#[local] Arguments get_or_create_project : simpl never.

Section Runs.
Context (clock : nat → Z).

Ltac run_step :=
  unfold mbind, M_bind, mret, M_ret, get_db, put_db, raise, utcnow; simpl.

Lemma flush_run (o : TaskObj) (w : World) :
  flush clock o w =
    if decide (loaded o = Some (attrs o)) then (Ok (attrs o), w)
    else
      let r := Task.set_updated_at (clock (ticks w)) (attrs o) in
      (Ok r, mkWorld (mkDB (projects (db w)) (<[pk o := r]> (tasks (db w)))
                        (notes (db w))) (S (ticks w))).
Proof. unfold flush. case_decide; run_step; done. Qed.

Lemma touch_task_run (o : TaskObj) (w : World) :
  touch_task clock o w =
    let a := Task.set_last_touched_at (clock (ticks w)) (attrs o) in
    if decide (loaded o = Some a)
    then (Ok (mkObj (pk o) (Some a) a), mkWorld (db w) (S (ticks w)))
    else
      let r := Task.set_updated_at (clock (S (ticks w))) a in
      (Ok (mkObj (pk o) (Some r) r),
       mkWorld (mkDB (projects (db w)) (<[pk o := r]> (tasks (db w)))
                  (notes (db w))) (S (S (ticks w)))).
Proof.
  unfold touch_task. run_step. rewrite flush_run. simpl.
  case_decide; done.
Qed.

Lemma insert_note_run (task_id : Z) (content kind : string) (w : World) :
  insert_note clock task_id content kind w =
    let i := next_id (notes (db w)) in
    let n := Note.mk task_id content (clock (ticks w)) kind in
    (Ok (i, n),
     mkWorld (mkDB (projects (db w)) (tasks (db w)) (<[i := n]> (notes (db w))))
       (S (ticks w))).
Proof. done. Qed.

Lemma insert_task_run (title description status next_action : string)
    (priority : Z) (project : option Z) (w : World) :
  insert_task clock title description status next_action priority project w =
    let i := next_id (tasks (db w)) in
    let r := Task.mk title description status next_action priority project
               (clock (ticks w)) (clock (S (ticks w))) (clock (S (S (ticks w)))) in
    (Ok (mkObj i (Some r) r),
     mkWorld (mkDB (projects (db w)) (<[i := r]> (tasks (db w))) (notes (db w)))
       (S (S (S (ticks w))))).
Proof. done. Qed.

(** The effect of [create_note] on an existing task: three readings of the
    clock, for the note's [created_at], the task's [last_touched_at] and,
    through the UPDATE that stores the touch, the task's [updated_at]. *)
Lemma create_note_run (body : NoteIn) (w : World) (r : Task.t) :
  tasks (db w) !! in_task_id body = Some r →
  create_note clock body w =
    let i := next_id (notes (db w)) in
    let n := Note.mk (in_task_id body) (in_content body) (clock (ticks w))
               (py_or (in_kind body) "note") in
    let r' := Task.set_updated_at (clock (S (S (ticks w))))
                (Task.set_last_touched_at (clock (S (ticks w))) r) in
    (Ok (i, n),
     mkWorld (mkDB (projects (db w)) (<[in_task_id body := r']> (tasks (db w)))
                (<[i := n]> (notes (db w))))
       (S (S (S (ticks w))))).
Proof.
  intros Hr. unfold create_note, commit. run_step. rewrite Hr.
  run_step. rewrite flush_run. simpl. by rewrite decide_True.
Qed.

Lemma create_note_missing (body : NoteIn) (w : World) :
  tasks (db w) !! in_task_id body = None →
  create_note clock body w = (Raise task_not_found, w).
Proof. intros Hr. unfold create_note. run_step. by rewrite Hr. Qed.

Lemma project_named_Some (d : DB) (n : string) (proj : Z * Project.t) :
  project_named d n = Some proj →
  projects d !! proj.1 = Some proj.2 ∧ Project.name proj.2 = n.
Proof.
  unfold project_named. intros H%head_Some_elem_of.
  apply list_elem_of_filter in H as [Hn H].
  destruct proj as [i x]. by apply elem_of_map_to_list in H.
Qed.

(** What [get_or_create_project] does: the project returned, the state of the
    [Task] instance the session holds, and the tables afterwards. *)
Lemma get_or_create_project_run (s : option TaskObj) (name : option string)
    (w : World) :
  ∃ p s' w',
    get_or_create_project clock s name w = (Ok (p, s'), w')
    ∧ notes (db w') = notes (db w)
    ∧ (ticks w ≤ ticks w')%nat
    ∧ projects (db w) ⊆ projects (db w')
    ∧ match p with
      | None => truthy name = false
      | Some i => ∃ proj, projects (db w') !! i = Some proj
                          ∧ name = Some (Project.name proj)
                          ∧ truthy name = true
      end
    ∧ match s with
      | None =>
          s' = None ∧ tasks (db w') = tasks (db w) ∧ (ticks w' ≤ S (ticks w))%nat
      | Some o =>
          (s' = Some o ∧ tasks (db w') = tasks (db w))
          ∨ (s' = Some (mkObj (pk o) None (attrs o))
             ∧ loaded o = Some (attrs o) ∧ tasks (db w') = tasks (db w))
          ∨ (∃ k : nat, (ticks w ≤ k < ticks w')%nat
             ∧ s' = Some (mkObj (pk o) None
                            (Task.set_updated_at (clock k) (attrs o)))
             ∧ tasks (db w')
               = <[pk o := Task.set_updated_at (clock k) (attrs o)]> (tasks (db w)))
      end.
Proof.
  unfold get_or_create_project.
  destruct name as [n|]; [destruct (truthy n) eqn:Tn; simpl|].
  - run_step. destruct (project_named (db w) n) as [proj|] eqn:E.
    + apply project_named_Some in E as [E1 E2].
      exists (Some proj.1), s, w. split_and!; try done.
      * exists proj.2. by rewrite E2.
      * destruct s; auto.
    + unfold insert_project, commit. run_step.
      assert (projects (db w)
              ⊆ <[next_id (projects (db w)) := Project.mk n (clock (ticks w))]>
                  (projects (db w))) as Hsub
        by apply insert_subseteq, next_id_fresh.
      destruct s as [o|]; run_step.
      * rewrite flush_run. simpl. case_decide; simpl.
        -- eexists _, _, _. split_and!; try done; [simpl; lia| |].
           ++ simpl. eexists. rewrite lookup_insert_eq. done.
           ++ right. left. done.
        -- eexists _, _, _. split_and!; try done; [simpl; lia| |].
           ++ simpl. eexists. rewrite lookup_insert_eq. done.
           ++ right. right. exists (S (ticks w)). simpl. split; [lia|done].
      * eexists _, _, _. split_and!; try done; [simpl; lia|].
        simpl. eexists. rewrite lookup_insert_eq. done.
  - exists None, s, w. split_and!; try done. destruct s; auto.
  - exists None, s, w. split_and!; try done. destruct s; auto.
Qed.

(** The effect of [create_task]: one row is added to [tasks] under a fresh
    id; its columns come from the body, its three timestamps from readings of
    the clock taken during the call. *)
Lemma create_task_run (body : TaskIn) (w : World) :
  ∃ r w',
    create_task clock body w = (Ok (next_id (tasks (db w)), r), w')
    ∧ tasks (db w') = <[next_id (tasks (db w)) := r]> (tasks (db w))
    ∧ notes (db w') = notes (db w)
    ∧ projects (db w) ⊆ projects (db w')
    ∧ Task.title r = in_title body
    ∧ Task.description r = py_or (in_description body) ""
    ∧ Task.status r = py_or (in_status body) "in_progress"
    ∧ Task.next_action r = py_or (in_next_action body) ""
    ∧ Task.priority r = py_or (in_priority body) 2
    ∧ read_during clock w w' (Task.created_at r)
    ∧ read_during clock w w' (Task.updated_at r)
    ∧ read_during clock w w' (Task.last_touched_at r).
Proof.
  destruct (get_or_create_project_run None (in_project_name body) w)
    as (p & s' & w1 & E & Hn & Ht & Hp & _ & -> & Hk & Ht').
  unfold create_task. run_step. rewrite E. simpl.
  rewrite touch_task_run. simpl.
  rewrite Hk, Hn.
  unfold read_during.
  case_decide as Hc; simpl; eexists _, _; (split; [done|]); simpl;
    split_and!; try done.
  - by injection Hc as <-.
  - exists (ticks w1). split; [lia|done].
  - exists (S (ticks w1)). split; [lia|done].
  - exists (S (S (S (ticks w1)))). split; [lia|done].
  - by rewrite insert_insert_eq.
  - exists (ticks w1). split; [lia|done].
  - exists (S (S (S (S (ticks w1))))). split; [lia|done].
  - exists (S (S (S (ticks w1)))). split; [lia|done].
Qed.

(** The effect of [quick_capture]: a task row under a fresh id and, when the
    description has a character that is not white space, one snapshot note. *)
Lemma quick_capture_run (project_name : option string)
    (title description next_action : string) (w : World) :
  ∃ r w',
    quick_capture clock project_name title description next_action w
      = (Ok (next_id (tasks (db w)), r), w')
    ∧ tasks (db w') = <[next_id (tasks (db w)) := r]> (tasks (db w))
    ∧ projects (db w) ⊆ projects (db w')
    ∧ Task.title r = title
    ∧ Task.description r = description
    ∧ Task.status r = "in_progress"
    ∧ Task.next_action r = next_action
    ∧ Task.priority r = 2
    ∧ read_during clock w w' (Task.last_touched_at r)
    ∧ if has_non_space description
      then ∃ c, read_during clock w w' c
                ∧ notes (db w')
                  = <[next_id (notes (db w)) :=
                        Note.mk (next_id (tasks (db w))) description c "snapshot"]>
                      (notes (db w))
      else notes (db w') = notes (db w).
Proof.
  destruct (get_or_create_project_run None project_name w)
    as (p & s' & w1 & E & Hn & Ht & Hp & _ & -> & Hk & Ht').
  unfold quick_capture, commit. run_step. rewrite E. simpl.
  rewrite truthy_strip. unfold read_during.
  destruct (has_non_space description); simpl.
  - rewrite flush_run. simpl. rewrite decide_True by done. simpl.
    rewrite Hk, Hn. eexists _, _. split; [done|]. simpl. split_and!; try done.
    + by rewrite insert_insert_eq.
    + exists (S (S (S (S (ticks w1))))). split; [lia|done].
    + eexists. split; [|done]. exists (S (S (S (ticks w1)))). split; [lia|done].
  - rewrite touch_task_run. simpl. rewrite Hk, Hn.
    case_decide as Hc; simpl; eexists _, _; (split; [done|]); simpl;
      split_and!; try done.
    + by injection Hc as <-.
    + exists (S (S (S (ticks w1)))). split; [lia|done].
    + by rewrite insert_insert_eq.
    + exists (S (S (S (ticks w1)))). split; [lia|done].
Qed.

(** The effect of [update_task] on an existing row. *)
Lemma update_task_run (task_id : Z) (body : TaskPatch) (w : World) (r : Task.t) :
  tasks (db w) !! task_id = Some r →
  ∃ r' w',
    update_task clock task_id body w = (Ok (task_id, r'), w')
    ∧ tasks (db w') = <[task_id := r']> (tasks (db w))
    ∧ notes (db w') = notes (db w)
    ∧ projects (db w) ⊆ projects (db w')
    ∧ read_during clock w w' (Task.last_touched_at r')
    ∧ Task.title r' = default (Task.title r) (patch_title body)
    ∧ Task.description r' = default (Task.description r) (patch_description body)
    ∧ Task.next_action r' = default (Task.next_action r) (patch_next_action body)
    ∧ Task.priority r' = default (Task.priority r) (patch_priority body)
    ∧ Task.status r' = default (Task.status r) (patch_status body)
    ∧ Task.created_at r' = Task.created_at r
    ∧ match patch_project_name body with
      | None =>
          Task.project_id r' = Task.project_id r
          ∧ projects (db w') = projects (db w)
      | Some n =>
          if truthy n
          then ∃ proj i, Task.project_id r' = Some i
                         ∧ projects (db w') !! i = Some proj
                         ∧ Project.name proj = n
          else Task.project_id r' = None
      end.
Proof.
  intros Hr. unfold update_task. run_step. rewrite Hr.
  assert (∀ x, Task.title (apply_patch body x)
               = default (Task.title x) (patch_title body)
             ∧ Task.description (apply_patch body x)
               = default (Task.description x) (patch_description body)
             ∧ Task.next_action (apply_patch body x)
               = default (Task.next_action x) (patch_next_action body)
             ∧ Task.priority (apply_patch body x)
               = default (Task.priority x) (patch_priority body)
             ∧ Task.status (apply_patch body x)
               = default (Task.status x) (patch_status body)
             ∧ Task.created_at (apply_patch body x) = Task.created_at x
             ∧ Task.project_id (apply_patch body x) = Task.project_id x) as Hap.
  { intros x. unfold apply_patch.
    destruct (patch_title body), (patch_description body),
      (patch_next_action body), (patch_priority body), (patch_status body);
      done. }
  destruct (Hap r) as (A1 & A2 & A3 & A4 & A5 & A6 & A7).
  unfold read_during.
  destruct (patch_project_name body) as [n|]; run_step.
  - destruct (get_or_create_project_run
                (Some (mkObj task_id (Some r) (apply_patch body r))) (Some n) w)
      as (p & s' & w1 & E & Hn & Ht & Hp & Hproj & Hs).
    rewrite E. simpl. simpl in Hs.
    assert (if truthy n
            then ∃ proj i, p = Some i ∧ projects (db w1) !! i = Some proj
                           ∧ Project.name proj = n
            else p = None) as Hpn.
    { destruct p as [i|].
      - destruct Hproj as (proj & Hi & Hnm & Htr).
        change (truthy n = true) in Htr. rewrite Htr.
        exists proj, i. split_and!; [done..|]. by injection Hnm.
      - change (truthy n = false) in Hproj. by rewrite Hproj. }
    destruct Hs as [[-> Hk]|[(-> & Hl & Hk)|(k & Hkr & -> & Hk)]]; simpl;
      try rewrite touch_task_run; simpl; try case_decide; simpl;
      eexists _, _; (split; [done|]); simpl; rewrite ?Hk, ?Hn;
      split_and!; try done.
    all: try (eexists; split; [|done]; simpl; lia).
    all: try (destruct (truthy n);
              [destruct Hpn as (proj & i & -> & Hi & Hnm); by exists proj, i
              |done]).
    + match goal with H : Some r = Some _ |- _ => injection H as H; rewrite <- H end.
      by rewrite insert_id.
    + by rewrite insert_insert_eq.
  - rewrite touch_task_run. simpl.
    case_decide as Hc; simpl; eexists _, _; (split; [done|]); simpl;
      split_and!; try done.
    + injection Hc as Hc. rewrite <- Hc. by rewrite insert_id.
    + exists (ticks w). split; [lia|done].
    + exists (ticks w). split; [lia|done].
Qed.

Lemma update_task_missing (task_id : Z) (body : TaskPatch) (w : World) :
  tasks (db w) !! task_id = None →
  update_task clock task_id body w = (Raise task_not_found, w).
Proof. intros Hr. unfold update_task. run_step. by rewrite Hr. Qed.

Lemma get_task_run (task_id : Z) (w : World) :
  get_task task_id w =
    match tasks (db w) !! task_id with
    | Some r => (Ok (task_id, r), w)
    | None => (Raise task_not_found, w)
    end.
Proof. unfold get_task. run_step. by destruct (tasks (db w) !! task_id). Qed.

Lemma delete_task_run (task_id : Z) (w : World) :
  delete_task task_id w =
    match tasks (db w) !! task_id with
    | Some _ =>
        (Ok tt,
         mkWorld (mkDB (projects (db w)) (delete task_id (tasks (db w)))
                    (filter (λ r, Note.task_id r.2 ≠ task_id) (notes (db w))))
           (ticks w))
    | None => (Raise task_not_found, w)
    end.
Proof. unfold delete_task. run_step. by destruct (tasks (db w) !! task_id). Qed.

Lemma delete_note_run (note_id : Z) (w : World) :
  delete_note note_id w =
    match notes (db w) !! note_id with
    | Some _ =>
        (Ok tt,
         mkWorld (mkDB (projects (db w)) (tasks (db w))
                    (delete note_id (notes (db w)))) (ticks w))
    | None => (Raise note_not_found, w)
    end.
Proof. unfold delete_note. run_step. by destruct (notes (db w) !! note_id). Qed.

Lemma create_project_tasks (name : string) (w : World) :
  tasks (db (create_project clock name w).2) = tasks (db w)
  ∧ (ticks w ≤ ticks (create_project clock name w).2)%nat.
Proof.
  unfold create_project. case_bool_decide; [|done].
  destruct (get_or_create_project_run None (Some name) w)
    as (p & s' & w1 & E & Hn & Ht & Hp & _ & -> & Hk & Ht').
  run_step. by rewrite E.
Qed.

(** ** The activity timestamp *)

Lemma touches_refl (w : World) : touches clock w w.
Proof. split; [done | auto]. Qed.

Lemma touches_insert (w w' : World) (i : Z) (r : Task.t) :
  tasks (db w') = <[i := r]> (tasks (db w)) →
  read_during clock w w' (Task.last_touched_at r) →
  touches clock w w'.
Proof.
  intros Ht Hr. split.
  - destruct Hr as (k & Hk & _). lia.
  - intros j t'. rewrite Ht. destruct (decide (i = j)) as [->|Hne].
    + rewrite lookup_insert_eq. intros [= <-]. by right.
    + rewrite lookup_insert_ne by done. by left.
Qed.

Lemma handle_touches (req : Request) (w : World) :
  touches clock w (handle clock req w).
Proof.
  destruct req as [pn t d n|n|body| i |i body|body|i l| |i|i]; simpl.
  - destruct (quick_capture_run pn t d n w)
      as (r & w' & -> & Ht & _ & _ & _ & _ & _ & _ & Hl & _).
    by eapply touches_insert.
  - destruct (create_project_tasks n w) as [Ht Hk].
    split; [done|]. intros j t'. rewrite Ht. by left.
  - destruct (create_task_run body w)
      as (r & w' & -> & Ht & _ & _ & _ & _ & _ & _ & _ & _ & _ & Hl).
    by eapply touches_insert.
  - rewrite get_task_run. destruct (tasks (db w) !! i); apply touches_refl.
  - destruct (tasks (db w) !! i) as [r|] eqn:Hr.
    + destruct (update_task_run i body w r Hr)
        as (r' & w' & -> & Ht & _ & _ & Hl & _).
      by eapply touches_insert.
    + rewrite update_task_missing by done. apply touches_refl.
  - destruct (tasks (db w) !! in_task_id body) as [r|] eqn:Hr.
    + rewrite (create_note_run body w r Hr). simpl.
      eapply touches_insert; [done|]. simpl.
      exists (S (ticks w)). simpl. split; [lia|done].
    + rewrite create_note_missing by done. apply touches_refl.
  - apply touches_refl.
  - rewrite resume_world. apply touches_refl.
  - rewrite delete_task_run. destruct (tasks (db w) !! i); [|apply touches_refl].
    split; [done|]. simpl. intros j t' Hj. left.
    by apply lookup_delete_Some in Hj as [_ Hj].
  - rewrite delete_note_run. destruct (notes (db w) !! i); [|apply touches_refl].
    split; [done|]. simpl. auto.
Qed.

Lemma stamped_initial : stamped_in_past clock initial_world.
Proof. intros i t. simpl. by rewrite lookup_empty. Qed.

Lemma stamped_step (w w' : World) :
  touches clock w w' → stamped_in_past clock w → stamped_in_past clock w'.
Proof.
  intros [Hk Ht] Hw i t' Hi. destruct (Ht i t' Hi) as [Hold|(k & Hr & ->)].
  - destruct (Hw i t' Hold) as (k & Hlt & ->). exists k. split; [lia|done].
  - exists k. split; [lia|done].
Qed.

Lemma stamped_serve (reqs : list Request) (w : World) :
  stamped_in_past clock w → stamped_in_past clock (serve clock reqs w).
Proof.
  revert w. induction reqs as [|req reqs IH]; intros w Hw; [done|].
  simpl. apply IH. eapply stamped_step; [apply handle_touches|done].
Qed.

(** A request that edits a task or adds a note removes no task. *)
Lemma activity_keeps (req : Request) (w : World) (j : Z) (t : Task.t) :
  is_activity req = true →
  tasks (db w) !! j = Some t →
  ∃ t1, tasks (db (handle clock req w)) !! j = Some t1
        ∧ (t1 = t ∨ read_during clock w (handle clock req w)
                       (Task.last_touched_at t1)).
Proof.
  intros Ha Hj. destruct req as [| | | |i body|body| | | |]; try done; simpl.
  - destruct (tasks (db w) !! i) as [r|] eqn:Hr.
    + destruct (update_task_run i body w r Hr)
        as (r' & w' & -> & Ht & _ & _ & Hl & _).
      simpl. rewrite Ht. destruct (decide (i = j)) as [->|Hne].
      * rewrite lookup_insert_eq. eauto.
      * rewrite lookup_insert_ne by done. eauto.
    + rewrite update_task_missing by done. eauto.
  - destruct (tasks (db w) !! in_task_id body) as [r|] eqn:Hr.
    + rewrite (create_note_run body w r Hr). simpl.
      destruct (decide (in_task_id body = j)) as [->|Hne].
      * rewrite lookup_insert_eq. eexists. split; [done|]. right.
        exists (S (ticks w)). simpl. split; [lia|done].
      * rewrite lookup_insert_ne by done. eauto.
    + rewrite create_note_missing by done. eauto.
Qed.

End Runs.

(** ** Snapshot notes *)



(** ** Notes and the task's timestamps *)

(** C3, as the code has it. Creating a note on an existing task sets the
    task's [last_touched_at] to a reading of the clock taken during the call
    and, because the UPDATE that stores it fires [onupdate], also sets
    [updated_at] to the next reading; no other column of the task changes. *)
Theorem create_note_refreshes_both_stamps (clock : nat → Z) (body : NoteIn)
    (w : World) (r : Task.t) :
  tasks (db w) !! in_task_id body = Some r →
  ∃ n w',
    create_note clock body w = (Ok n, w')
    ∧ tasks (db w') !! in_task_id body
      = Some (Task.set_updated_at (clock (S (S (ticks w))))
                (Task.set_last_touched_at (clock (S (ticks w))) r))
    ∧ read_during clock w w' (clock (S (ticks w)))
    ∧ read_during clock w w' (clock (S (S (ticks w)))).
Proof.
  intros Hr. rewrite (create_note_run clock body w r Hr). simpl.
  eexists _, _. split; [done|]. simpl. rewrite lookup_insert_eq.
  split_and!; [done| |]; eexists; (split; [|done]); simpl; lia.
Qed.

Lemma create_note_refreshes_both_stamps_witness :
  ∃ r, tasks (db ex_world) !! 1 = Some r
       ∧ ∃ n w',
           create_note ex_clock (mkNoteIn 1 "use 15 min TTL" (Some "decision"))
             ex_world = (Ok n, w')
           ∧ tasks (db w') !! 1
             = Some (Task.set_updated_at (ex_clock (S (S (ticks ex_world))))
                       (Task.set_last_touched_at
                          (ex_clock (S (ticks ex_world))) r))
           ∧ read_during ex_clock ex_world w' (ex_clock (S (ticks ex_world)))
           ∧ read_during ex_clock ex_world w'
               (ex_clock (S (S (ticks ex_world)))).
Proof.
  eexists. split; [vm_compute; reflexivity|].
  apply (create_note_refreshes_both_stamps ex_clock
           (mkNoteIn 1 "use 15 min TTL" (Some "decision")) ex_world).
  vm_compute. reflexivity.
Defined.

(** C3 fails as stated: after a note is added to task 1 of the example
    world, the task's [updated_at] differs from its value before. *)
Lemma note_keeps_updated_at_counterexample :
  ∃ r r' n w',
    tasks (db ex_world) !! 1 = Some r
    ∧ create_note ex_clock (mkNoteIn 1 "use 15 min TTL" (Some "decision"))
        ex_world = (Ok n, w')
    ∧ tasks (db w') !! 1 = Some r'
    ∧ Task.updated_at r' ≠ Task.updated_at r.
Proof.
  eexists _, _, _, _. split_and!; [vm_compute; reflexivity..|].
  vm_compute. discriminate.
Qed.

(** ** Creating tasks and notes *)





(** ** Partial update *)


(** ** Deleting a task *)


(** ** Defaults for falsy fields *)


(** ** Monotonicity of the activity timestamp *)

Lemma clock_le (clock : nat → Z) (a b : nat) :
  (∀ n, clock n ≤ clock (S n)) → (a ≤ b)%nat → clock a ≤ clock b.
Proof.
  intros Hmono Hab. induction Hab as [|b Hab IH]; [done|].
  specialize (Hmono b). lia.
Qed.

Lemma activity_monotone (clock : nat → Z) (reqs : list Request) (w : World)
    (id : Z) (t t' : Task.t) :
  (∀ n, clock n ≤ clock (S n)) →
  stamped_in_past clock w →
  Forall (λ req, is_activity req = true) reqs →
  tasks (db w) !! id = Some t →
  tasks (db (serve clock reqs w)) !! id = Some t' →
  Task.last_touched_at t ≤ Task.last_touched_at t'.
Proof.
  intros Hmono. revert w t.
  induction reqs as [|req reqs IH]; intros w t Hw Hall Ht Ht'; simpl in Ht'.
  - assert (t' = t) as -> by congruence. done.
  - apply Forall_cons in Hall as [Hreq Hall].
    destruct (activity_keeps clock req w id t Hreq Ht) as (t1 & Ht1 & Hcase).
    assert (Task.last_touched_at t ≤ Task.last_touched_at t1) as Hle.
    { destruct Hcase as [->|(k & Hk & ->)]; [done|].
      destruct (Hw id t Ht) as (k0 & Hk0 & ->).
      apply clock_le; [done|lia]. }
    assert (stamped_in_past clock (handle clock req w)) as Hw1
      by (eapply stamped_step; [apply handle_touches|done]).
    specialize (IH (handle clock req w) t1 Hw1 Hall Ht1 Ht'). lia.
Qed.

(** C9. Let the clock be non-decreasing and let the database have any
    history of requests since it was created.  Then over any further sequence
    of [update_task] and [create_note] requests the [last_touched_at] of a
    task at the end is at least its value at the start. *)
Theorem last_touched_monotone (clock : nat → Z) (history reqs : list Request)
    (id : Z) (t t' : Task.t) :
  (∀ n, clock n ≤ clock (S n)) →
  Forall (λ req, is_activity req = true) reqs →
  tasks (db (serve clock history initial_world)) !! id = Some t →
  tasks (db (serve clock reqs (serve clock history initial_world))) !! id
    = Some t' →
  Task.last_touched_at t ≤ Task.last_touched_at t'.
Proof.
  intros Hmono Hall. apply activity_monotone; [done| |done].
  apply stamped_serve, stamped_initial.
Qed.

Lemma last_touched_monotone_witness :
  let history :=
    [CreateTask (mkTaskIn "Fix token expiry" None None None None None)] in
  let reqs :=
    [CreateNote (mkNoteIn 1 "use 15 min TTL" (Some "decision"));
     UpdateTask 1 (mkTaskPatch None None None None (Some "done") None)] in
  ∃ t t',
    tasks (db (serve ex_clock history initial_world)) !! 1 = Some t
    ∧ tasks (db (serve ex_clock reqs (serve ex_clock history initial_world))) !! 1
      = Some t'
    ∧ Task.last_touched_at t ≤ Task.last_touched_at t'.
Proof.
  eexists _, _. split; [vm_compute; reflexivity|].
  split; [vm_compute; reflexivity|].
  apply (last_touched_monotone ex_clock
           [CreateTask (mkTaskIn "Fix token expiry" None None None None None)]
           [CreateNote (mkNoteIn 1 "use 15 min TTL" (Some "decision"));
            UpdateTask 1 (mkTaskPatch None None None None (Some "done") None)]
           1).
  - intros n. unfold ex_clock. lia.
  - repeat constructor.
  - vm_compute. reflexivity.
  - vm_compute. reflexivity.
Defined.

(** * More of the program *)

(** ** Projects *)

Lemma project_named_None (d : DB) (n : string) :
  project_named d n = None ↔
  ∀ i p, projects d !! i = Some p → Project.name p ≠ n.
Proof.
  unfold project_named. rewrite head_None. split.
  - intros E i p Hi Hn.
    assert ((i, p) ∈ filter (λ r : Z * Project.t, Project.name r.2 = n)
                       (map_to_list (projects d))) as Hin.
    { apply list_elem_of_filter. split; [done|]. by apply elem_of_map_to_list. }
    rewrite E in Hin. by apply elem_of_nil in Hin.
  - intros H.
    destruct (filter _ (map_to_list (projects d))) as [|[i p] l] eqn:E; [done|].
    assert ((i, p) ∈ filter (λ r : Z * Project.t, Project.name r.2 = n)
                       (map_to_list (projects d))) as Hin
      by (rewrite E; left).
    apply list_elem_of_filter in Hin as [Hn Hin].
    apply elem_of_map_to_list in Hin. by destruct (H i p Hin).
Qed.

(** Right after a project is inserted under a name no row had, a lookup by
    that name finds the new row. *)
Lemma project_named_inserted (d : DB) (n : string) (c : Z) :
  project_named d n = None →
  project_named
    (mkDB (<[next_id (projects d) := Project.mk n c]> (projects d))
       (tasks d) (notes d)) n
  = Some (next_id (projects d), Project.mk n c).
Proof.
  intros E. unfold project_named in *. simpl.
  apply head_None in E.
  pose proof (map_to_list_insert (projects d) (next_id (projects d))
                (Project.mk n c) (next_id_fresh _)) as P.
  apply (filter_Permutation (λ r : Z * Project.t, Project.name r.2 = n)) in P.
  rewrite filter_cons_True, E in P by done.
  apply Permutation_singleton_r in P. by rewrite P.
Qed.

Section Projects.
Context (clock : nat → Z).

Ltac run_step :=
  unfold mbind, M_bind, mret, M_ret, get_db, put_db, raise, utcnow; simpl.

(** What [get_or_create_project] does to the [projects] table: nothing, or one
    new row, under a fresh id, with a name no row had. *)
Lemma get_or_create_project_projects (s : option TaskObj)
    (name : option string) (w : World) :
  projects (db (get_or_create_project clock s name w).2) = projects (db w)
  ∨ ∃ n c, name = Some n
           ∧ project_named (db w) n = None
           ∧ projects (db (get_or_create_project clock s name w).2)
             = <[next_id (projects (db w)) := Project.mk n c]> (projects (db w)).
Proof.
  unfold get_or_create_project.
  destruct name as [n|]; [|by left].
  destruct (truthy n); simpl; [|by left].
  run_step. destruct (project_named (db w) n) as [proj|] eqn:E; [by left|].
  right. exists n, (clock (ticks w)). split_and!; [done..|].
  unfold insert_project, commit. run_step.
  destruct s as [o|]; run_step; [|done].
  rewrite flush_run. simpl. by case_decide.
Qed.


(** X2. Asking for the same project again returns the same answer and
    changes nothing: after one call a second call with the same name creates
    no second row. *)
Theorem get_or_create_project_idempotent (name : option string) (w : World) :
  get_or_create_project clock None name
    (get_or_create_project clock None name w).2
  = get_or_create_project clock None name w.
Proof.
  unfold get_or_create_project.
  destruct name as [n|]; [|done].
  destruct (truthy n) eqn:Tn; simpl; [|done].
  run_step. destruct (project_named (db w) n) as [proj|] eqn:E; simpl.
  - by rewrite E.
  - unfold insert_project. run_step.
    by rewrite (project_named_inserted (db w) n (clock (ticks w)) E).
Qed.

(** The only writes to [projects] are those of [get_or_create_project]. *)
Lemma handle_projects (req : Request) (w : World) :
  projects (db (handle clock req w)) = projects (db w)
  ∨ ∃ n c, project_named (db w) n = None
           ∧ projects (db (handle clock req w))
             = <[next_id (projects (db w)) := Project.mk n c]> (projects (db w)).
Proof.
  assert (∀ s name w1 r,
            get_or_create_project clock s name w = (r, w1) →
            projects (db w1) = projects (db w)
            ∨ ∃ n c, project_named (db w) n = None
                     ∧ projects (db w1)
                       = <[next_id (projects (db w)) := Project.mk n c]>
                           (projects (db w))) as Hg.
  { intros s name w1 r E.
    destruct (get_or_create_project_projects s name w) as [H|(n & c & _ & H)];
      rewrite E in H; simpl in H; [by left|]. right. by exists n, c. }
  destruct req as [pn t d n|n|body| i |i body|body|i l| |i|i]; simpl.
  - destruct (get_or_create_project_run clock None pn w)
      as (p & s' & w1 & E & _ & _ & _ & _ & -> & _).
    specialize (Hg _ _ _ _ E).
    unfold quick_capture, commit. run_step. rewrite E. simpl.
    destruct (truthy (strip d)); simpl;
      rewrite ?flush_run, ?touch_task_run; simpl; repeat case_decide; done.
  - unfold create_project. case_bool_decide; [|by left].
    destruct (get_or_create_project_run clock None (Some n) w)
      as (p & s' & w1 & E & _ & _ & _ & _ & -> & _).
    specialize (Hg _ _ _ _ E). run_step. by rewrite E.
  - destruct (get_or_create_project_run clock None (in_project_name body) w)
      as (p & s' & w1 & E & _ & _ & _ & _ & -> & _).
    specialize (Hg _ _ _ _ E).
    unfold create_task. run_step. rewrite E. simpl.
    rewrite touch_task_run. simpl. by case_decide.
  - left. by rewrite get_task_run; destruct (tasks (db w) !! i).
  - destruct (tasks (db w) !! i) as [r|] eqn:Hr;
      [|left; by rewrite update_task_missing].
    unfold update_task. run_step. rewrite Hr.
    destruct (patch_project_name body) as [nm|]; run_step.
    + destruct (get_or_create_project_run clock
                  (Some (mkObj i (Some r) (apply_patch body r))) (Some nm) w)
        as (p & s' & w1 & E & _ & _ & _ & _ & Hs).
      specialize (Hg _ _ _ _ E). rewrite E. simpl.
      destruct Hs as [[-> _]|[(-> & _)|(k & _ & -> & _)]]; simpl;
        rewrite ?touch_task_run; simpl; repeat case_decide; done.
    + left. rewrite touch_task_run. simpl. by case_decide.
  - left. destruct (tasks (db w) !! in_task_id body) as [r|] eqn:Hr.
    + by rewrite (create_note_run clock body w r Hr).
    + by rewrite create_note_missing.
  - by left.
  - left. by rewrite resume_world.
  - left. rewrite delete_task_run. by destruct (tasks (db w) !! i).
  - left. rewrite delete_note_run. by destruct (notes (db w) !! i).
Qed.

Lemma unique_names_step (req : Request) (w : World) :
  unique_names (db w) → unique_names (db (handle clock req w)).
Proof.
  intros Hu. destruct (handle_projects req w) as [E|(n & c & Hn & E)];
    unfold unique_names; rewrite E; [done|].
  pose proof (proj1 (project_named_None _ _) Hn) as Hfresh.
  intros i j p q Hi Hj Hpq.
  apply lookup_insert_Some in Hi as [[<- <-]|[Hni Hi]];
    apply lookup_insert_Some in Hj as [[<- <-]|[Hnj Hj]].
  - done.
  - simpl in Hpq. by destruct (Hfresh j q Hj).
  - simpl in Hpq. by destruct (Hfresh i p Hi).
  - by apply (Hu i j p q).
Qed.

(** X3. Whatever requests a database has served since it was created, no two
    of its projects have the same name. *)
Theorem project_names_stay_unique (history : list Request) :
  unique_names (db (serve clock history initial_world)).
Proof.
  assert (∀ w, unique_names (db w) → unique_names (db (serve clock history w)))
    as H.
  { induction history as [|req reqs IH]; intros w Hw; [done|].
    simpl. apply IH. by apply unique_names_step. }
  apply H. intros i j p q Hi. simpl in Hi. by rewrite lookup_empty in Hi.
Qed.

(** X4. [create_project] refuses a name that is empty or longer than 200
    characters with a validation error and changes nothing; any other name is
    answered with the id of a project of that name, which is in the table
    afterwards, and tasks and notes are not touched. *)
Theorem create_project_outcomes (name : string) (w : World) :
  if bool_decide (1 ≤ String.length name ≤ 200)%nat
  then ∃ i proj w',
         create_project clock name w = (Ok (Some i), w')
         ∧ projects (db w') !! i = Some proj
         ∧ Project.name proj = name
         ∧ projects (db w) ⊆ projects (db w')
         ∧ tasks (db w') = tasks (db w)
         ∧ notes (db w') = notes (db w)
  else create_project clock name w = (Raise RequestValidationError, w).
Proof.
  unfold create_project. case_bool_decide as Hlen; [|done].
  destruct name as [|a n]; [simpl in Hlen; lia|].
  destruct (get_or_create_project_run clock None (Some (String a n)) w)
    as (p & s' & w' & E & Hn & _ & Hp & Hproj & -> & Ht & _).
  destruct p as [i|]; [|done].
  destruct Hproj as (proj & Hi & [= Hnm] & _).
  exists i, proj, w'. run_step. rewrite E. done.
Qed.

End Projects.

(** ** References between the tables *)

Section References.
Context (clock : nat → Z).

Ltac run_step :=
  unfold mbind, M_bind, mret, M_ret, get_db, put_db, raise, utcnow; simpl.

(** The project a new task is given by [create_task] or [quick_capture] is a
    row of [projects]. *)
Lemma create_task_project (body : TaskIn) (w : World) :
  ∀ r w' p,
    create_task clock body w = (Ok (next_id (tasks (db w)), r), w') →
    Task.project_id r = Some p → is_Some (projects (db w') !! p).
Proof.
  intros r w' p.
  destruct (get_or_create_project_run clock None (in_project_name body) w)
    as (q & s' & w1 & E & _ & _ & _ & Hproj & -> & _).
  unfold create_task. run_step. rewrite E. simpl.
  rewrite touch_task_run. simpl.
  case_decide; simpl; intros [= _ <- <-]; simpl; intros ->;
    destruct Hproj as (proj & -> & _); by eexists.
Qed.

Lemma quick_capture_project (project_name : option string)
    (title description next_action : string) (w : World) :
  ∀ r w' p,
    quick_capture clock project_name title description next_action w
      = (Ok (next_id (tasks (db w)), r), w') →
    Task.project_id r = Some p → is_Some (projects (db w') !! p).
Proof.
  intros r w' p.
  destruct (get_or_create_project_run clock None project_name w)
    as (q & s' & w1 & E & _ & _ & _ & Hproj & -> & _).
  unfold quick_capture, commit. run_step. rewrite E. simpl.
  destruct (truthy (strip description)); simpl;
    rewrite ?flush_run, ?touch_task_run; simpl; repeat case_decide; simpl;
    intros [= _ <- <-]; simpl; intros ->;
    destruct Hproj as (proj & -> & _); by eexists.
Qed.

(** Writing one task row, adding notes only for that task and adding
    projects keeps the references in place. *)
Lemma references_write (d d' : DB) (id : Z) (r : Task.t) :
  references_hold d →
  projects d ⊆ projects d' →
  tasks d' = <[id := r]> (tasks d) →
  (∀ p, Task.project_id r = Some p → is_Some (projects d' !! p)) →
  (∀ i n, notes d' !! i = Some n → notes d !! i = Some n ∨ Note.task_id n = id) →
  references_hold d'.
Proof.
  intros [Hnotes Htasks] Hsub Ht Hr Hn. split.
  - intros i n Hi. rewrite Ht.
    destruct (decide (id = Note.task_id n)) as [<-|Hne];
      [rewrite lookup_insert_eq; by eexists|].
    rewrite lookup_insert_ne by done.
    destruct (Hn i n Hi) as [Hold|Hid]; [by eapply Hnotes|congruence].
  - intros i t p. rewrite Ht.
    intros [[_ <-]|[_ Hi]]%lookup_insert_Some Hp; [by apply Hr|].
    destruct (Htasks i t p Hi Hp) as [x Hx]. exists x. by eapply lookup_weaken.
Qed.

Lemma references_step (req : Request) (w : World) :
  references_hold (db w) → references_hold (db (handle clock req w)).
Proof.
  intros Hw.
  destruct req as [pn t d n|n|body| i |i body|body|i l| |i|i]; simpl.
  - destruct (quick_capture_run clock pn t d n w)
      as (r & w' & E & Ht & Hp & _ & Hd & _ & _ & _ & _ & Hs).
    pose proof (quick_capture_project pn t d n w r w' ) as Hproj.
    rewrite E in *. simpl.
    eapply references_write; [done..|eauto|].
    intros j x Hj.
    destruct (has_non_space d); [|rewrite Hs in Hj; by left].
    destruct Hs as (c & _ & Hs). rewrite Hs in Hj.
    apply lookup_insert_Some in Hj as [[_ <-]|[_ Hj]]; [by right|by left].
  - unfold create_project. case_bool_decide; [|done].
    destruct (get_or_create_project_run clock None (Some n) w)
      as (p & s' & w1 & E & Hn & _ & Hp & _ & -> & Ht & _).
    run_step. rewrite E. simpl.
    destruct Hw as [Hnotes Htasks]. split.
    + intros j x. rewrite Hn, Ht. apply Hnotes.
    + intros j x q. rewrite Ht. intros Hj Hq.
      destruct (Htasks j x q Hj Hq) as [y Hy]. exists y.
      by eapply lookup_weaken.
  - destruct (create_task_run clock body w)
      as (r & w' & E & Ht & Hn & Hp & _).
    pose proof (create_task_project body w r w') as Hproj.
    rewrite E in *. simpl.
    eapply references_write; [done..|eauto|].
    intros j x. rewrite Hn. by left.
  - by rewrite get_task_run; destruct (tasks (db w) !! i).
  - destruct (tasks (db w) !! i) as [r|] eqn:Hr;
      [|by rewrite update_task_missing].
    destruct (update_task_run clock i body w r Hr)
      as (r' & w' & E & Ht & Hn & Hp & _ & _ & _ & _ & _ & _ & _ & Hproj).
    rewrite E. simpl.
    eapply references_write; [done..| |intros j x; rewrite Hn; by left].
    intros p Hpr. destruct (patch_project_name body) as [nm|].
    + destruct (truthy nm); [|congruence].
      destruct Hproj as (proj & q & Hq & Hlook & _).
      assert (p = q) as -> by congruence. by eexists.
    + destruct Hproj as [Hsame Heq]. rewrite Heq.
      destruct Hw as [_ Htasks]. eapply Htasks; [done|congruence].
  - destruct (tasks (db w) !! in_task_id body) as [r|] eqn:Hr;
      [|by rewrite create_note_missing].
    rewrite (create_note_run clock body w r Hr). simpl.
    eapply references_write; [done|done|done| |]; simpl.
    + destruct Hw as [_ Htasks]. intros p Hp. by eapply Htasks.
    + intros j x [[_ <-]|[_ Hj]]%lookup_insert_Some; [by right|by left].
  - done.
  - by rewrite resume_world.
  - rewrite delete_task_run. destruct (tasks (db w) !! i) as [r|] eqn:Hr;
      [|done].
    destruct Hw as [Hnotes Htasks]. split; simpl.
    + intros j x [Hj Hne]%map_lookup_filter_Some. simpl in Hne.
      rewrite lookup_delete_ne by done. by eapply Hnotes.
    + intros j x p [_ Hj]%lookup_delete_Some. by eapply Htasks.
  - rewrite delete_note_run. destruct (notes (db w) !! i) as [x|] eqn:Hx;
      [|done].
    destruct Hw as [Hnotes Htasks]. split; simpl; [|done].
    intros j y [_ Hj]%lookup_delete_Some. by eapply Hnotes.
Qed.

Lemma references_serve (reqs : list Request) (w : World) :
  references_hold (db w) → references_hold (db (serve clock reqs w)).
Proof.
  revert w. induction reqs as [|req reqs IH]; intros w Hw; [done|].
  simpl. apply IH. by apply references_step.
Qed.

Lemma references_initial : references_hold (db initial_world).
Proof.
  split; simpl.
  - intros i n Hi. by rewrite lookup_empty in Hi.
  - intros i t p Hi. by rewrite lookup_empty in Hi.
Qed.

(** X5. Whatever requests a database has served since it was created, every
    note in it belongs to a task that is in it, and every task that has a
    project to a project that is in it. *)
Theorem references_always_hold (history : list Request) :
  references_hold (db (serve clock history initial_world)).
Proof. apply references_serve, references_initial. Qed.

End References.

(** ** Listings *)

#[global] Instance project_created_later_trans : Transitive project_created_later.
Proof. unfold project_created_later. intros ???. lia. Qed.
#[global] Instance project_created_later_total : Total project_created_later.
Proof. unfold project_created_later. intros ??. lia. Qed.

Lemma merge_sort_NoDup {A} (R : relation A) `{!RelDecision R} (l : list A) :
  NoDup l → NoDup (merge_sort R l).
Proof. intros H. by rewrite merge_sort_Permutation. Qed.

(** X6. [list_projects] fails on no database and changes nothing; it returns
    every project exactly once, newest first. *)
Theorem list_projects_all_newest_first (w : World) :
  ∃ l,
    list_projects w = (Ok l, w)
    ∧ (∀ i p, (i, p) ∈ l ↔ projects (db w) !! i = Some p)
    ∧ NoDup l
    ∧ StronglySorted project_created_later l.
Proof.
  eexists. split; [done|]. split_and!.
  - intros i p. by rewrite merge_sort_Permutation, elem_of_map_to_list.
  - apply merge_sort_NoDup, NoDup_map_to_list.
  - apply StronglySorted_merge_sort; apply _.
Qed.

(** X7. [list_tasks] changes nothing and returns, each exactly once and most
    recently touched first, the tasks that pass both filters.  A filter that
    is absent or the empty string lets every task pass; a status filter keeps
    the tasks with exactly that status; a project filter keeps the tasks
    whose project is in the table under exactly that name, so never a task
    without a project. *)
Theorem list_tasks_filters (status project : option string) (w : World) :
  ∃ l,
    list_tasks status project w = (Ok l, w)
    ∧ (∀ i t, (i, t) ∈ l ↔
         tasks (db w) !! i = Some t
         ∧ (truthy status = false ∨ Some (Task.status t) = status)
         ∧ (truthy project = false
            ∨ ∃ p proj, Task.project_id t = Some p
                        ∧ projects (db w) !! p = Some proj
                        ∧ Some (Project.name proj) = project))
    ∧ NoDup l
    ∧ StronglySorted touched_later l.
Proof.
  eexists. split; [done|].
  assert (∀ t, joined_project_name (db w) t = project ∧ truthy project = true
               ↔ truthy project = true
                 ∧ ∃ p proj, Task.project_id t = Some p
                             ∧ projects (db w) !! p = Some proj
                             ∧ Some (Project.name proj) = project) as Hj.
  { intros t. unfold joined_project_name.
    destruct (Task.project_id t) as [p|]; simpl;
      [destruct (projects (db w) !! p) as [proj|] eqn:Hp; simpl|].
    - split; [intros [<- ?]; eauto 6|].
      intros (? & q & proj' & [= <-] & Hq & <-). split; [congruence|done].
    - split; [by intros [<- ?]|].
      intros (? & q & proj' & [= <-] & Hq & _). congruence.
    - split; [by intros [<- ?]|]. by intros (? & q & proj' & ? & _). }
  split_and!.
  - intros i t. rewrite merge_sort_Permutation.
    destruct (truthy status) eqn:Ts, (truthy project) eqn:Tp;
      rewrite ?list_elem_of_filter, elem_of_map_to_list; simpl;
      specialize (Hj t); rewrite ?Tp in Hj.
    + split.
      * intros (Hjn & Hst & Hi). split_and!; [done|by right|right].
        by apply Hj.
      * intros (Hi & [?|Hst] & [?|Hpr]); try done.
        split_and!; [|done..]. by apply Hj.
    + split; [intros (? & ?); auto|]. intros (? & [?|?] & _); done.
    + split.
      * intros (Hjn & Hi). split_and!; [done|by left|right]. by apply Hj.
      * intros (Hi & _ & [?|Hpr]); [done|]. split; [|done]. by apply Hj.
    + split; [auto|]. by intros (? & _).
  - apply merge_sort_NoDup.
    destruct (truthy status), (truthy project);
      repeat apply NoDup_filter; apply NoDup_map_to_list.
  - apply StronglySorted_merge_sort; apply _.
Qed.


(** ** Lookups after writes *)

Lemma notes_of_none (d : DB) (id : Z) :
  (∀ i n, notes d !! i = Some n → Note.task_id n ≠ id) → notes_of d id = [].
Proof.
  intros H. unfold notes_of.
  destruct (filter _ (map_to_list (notes d))) as [|[i n] l] eqn:E; [done|].
  assert ((i, n) ∈ filter (λ r : Z * Note.t, Note.task_id r.2 = id)
                     (map_to_list (notes d))) as Hin by (rewrite E; left).
  apply list_elem_of_filter in Hin as [Hid Hin].
  apply elem_of_map_to_list in Hin. by destruct (H i n Hin).
Qed.

Lemma limit_rows_nil {A} (n : Z) : limit_rows n (@nil A) = [].
Proof. unfold limit_rows. destruct (n <? 0); [done|]. by rewrite take_nil. Qed.







(** ** Resuming after activity *)

Lemma clock_lt (clock : nat → Z) (a b : nat) :
  (∀ n, clock n < clock (S n)) → (a < b)%nat → clock a < clock b.
Proof.
  intros Hstrict Hab. induction Hab as [|b Hab IH].
  - apply Hstrict.
  - specialize (Hstrict b). lia.
Qed.

(** A resumable task touched strictly later than every other task is the one
    [resume] returns. *)
Lemma resume_latest (w : World) (id : Z) (r : Task.t) :
  tasks (db w) !! id = Some r →
  resumable r →
  (∀ j t, j ≠ id → tasks (db w) !! j = Some t →
     Task.last_touched_at t < Task.last_touched_at r) →
  resume w = (Ok ((id, r), limit_rows 5 (notes_of (db w) id)), w).
Proof.
  intros Hr Hres Hlt.
  unfold resume, mbind, M_bind, get_db, mret, M_ret, raise. simpl.
  assert ((id, r) ∈ filter (λ x : Z * Task.t, is_active x.2 = true)
                      (map_to_list (tasks (db w)))) as Hin.
  { apply list_elem_of_filter. split.
    - by apply is_active_resumable.
    - by apply elem_of_map_to_list. }
  destruct (head _) as [[j u]|] eqn:E.
  - apply head_merge_sort_Some in E as [Hj Hmax]; [|apply _..].
    apply list_elem_of_filter in Hj as [_ Hj]. apply elem_of_map_to_list in Hj.
    specialize (Hmax (id, r) Hin). unfold touched_later in Hmax. simpl in Hmax.
    destruct (decide (j = id)) as [->|Hne].
    + by assert (u = r) as -> by congruence.
    + specialize (Hlt j u Hne Hj). lia.
  - apply head_merge_sort_None in E; [|apply _..]. rewrite E in Hin.
    by apply elem_of_nil in Hin.
Qed.

(** A note created strictly later than the other notes of its task comes
    first among them. *)
Lemma notes_of_newest (d : DB) (i : Z) (n : Note.t) :
  notes d !! i = Some n →
  (∀ j m, j ≠ i → notes d !! j = Some m → Note.task_id m = Note.task_id n →
     Note.created_at m < Note.created_at n) →
  head (notes_of d (Note.task_id n)) = Some (i, n).
Proof.
  intros Hi Hlt. unfold notes_of.
  assert ((i, n) ∈ filter (λ x : Z * Note.t, Note.task_id x.2 = Note.task_id n)
                     (map_to_list (notes d))) as Hin.
  { apply list_elem_of_filter. split; [done|]. by apply elem_of_map_to_list. }
  destruct (head _) as [[j m]|] eqn:E.
  - apply head_merge_sort_Some in E as [Hj Hmax]; [|apply _..].
    apply list_elem_of_filter in Hj as [Hid Hj]. simpl in Hid.
    apply elem_of_map_to_list in Hj.
    specialize (Hmax (i, n) Hin). unfold created_later in Hmax. simpl in Hmax.
    destruct (decide (j = i)) as [->|Hne].
    + by assert (m = n) as -> by congruence.
    + specialize (Hlt j m Hne Hj Hid). lia.
  - apply head_merge_sort_None in E; [|apply _..]. rewrite E in Hin.
    by apply elem_of_nil in Hin.
Qed.

Lemma head_limit_rows_5 {A} (l : list A) : head (limit_rows 5 l) = head l.
Proof. by destruct l. Qed.

Section Stamps.
Context (clock : nat → Z).

(** Every note of the world after a request is a note of the world before
    or was created at a reading taken in between. *)
Lemma handle_notes (req : Request) (w : World) :
  ∀ i n, notes (db (handle clock req w)) !! i = Some n →
    notes (db w) !! i = Some n
    ∨ read_during clock w (handle clock req w) (Note.created_at n).
Proof.
  destruct req as [pn t d nm|nm|body| j |j body|body|j l| |j|j]; simpl;
    intros i n.
  - destruct (quick_capture_run clock pn t d nm w)
      as (r & w' & -> & _ & _ & _ & _ & _ & _ & _ & _ & Hs). simpl.
    destruct (has_non_space d); [|rewrite Hs; by left].
    destruct Hs as (c & Hc & ->).
    intros [[_ <-]|[_ Hi]]%lookup_insert_Some; [by right|by left].
  - unfold create_project. case_bool_decide; [|by left].
    destruct (get_or_create_project_run clock None (Some nm) w)
      as (p & s' & w1 & E & Hn & _).
    unfold mbind, M_bind. rewrite E. simpl. rewrite Hn. by left.
  - destruct (create_task_run clock body w) as (r & w' & -> & _ & Hn & _).
    simpl. rewrite Hn. by left.
  - rewrite get_task_run. destruct (tasks (db w) !! j); by left.
  - destruct (tasks (db w) !! j) as [r|] eqn:Hr.
    + destruct (update_task_run clock j body w r Hr)
        as (r' & w' & -> & _ & Hn & _). simpl. rewrite Hn. by left.
    + rewrite update_task_missing by done. by left.
  - destruct (tasks (db w) !! in_task_id body) as [r|] eqn:Hr.
    + rewrite (create_note_run clock body w r Hr). simpl.
      intros [[_ <-]|[_ Hi]]%lookup_insert_Some; [right|by left].
      exists (ticks w). simpl. split; [lia|done].
    + rewrite create_note_missing by done. by left.
  - by left.
  - rewrite resume_world. by left.
  - rewrite delete_task_run. destruct (tasks (db w) !! j); [|by left].
    simpl. intros [Hi _]%map_lookup_filter_Some. by left.
  - rewrite delete_note_run. destruct (notes (db w) !! j); [|by left].
    simpl. intros [_ Hi]%lookup_delete_Some. by left.
Qed.

Lemma note_stamps_serve (reqs : list Request) (w : World) :
  note_stamps clock w → note_stamps clock (serve clock reqs w).
Proof.
  revert w. induction reqs as [|req reqs IH]; intros w Hw; [done|].
  simpl. apply IH. intros i n Hi.
  destruct (handle_touches clock req w) as [Hk _].
  destruct (handle_notes req w i n Hi) as [Hold|(k & Hr & ->)].
  - destruct (Hw i n Hold) as (k & Hlt & ->). exists k. split; [lia|done].
  - exists k. split; [lia|done].
Qed.

Lemma note_stamps_initial : note_stamps clock initial_world.
Proof. intros i n Hi. simpl in Hi. by rewrite lookup_empty in Hi. Qed.

End Stamps.

(** X13. Let the clock be strictly increasing and the database have any
    history of requests.  After a note is added to a task whose status is
    todo, in_progress or paused, [resume] returns that task, and the note
    just added is the first of the notes it returns. *)
Theorem resume_after_create_note (clock : nat → Z) (history : list Request)
    (body : NoteIn) (r : Task.t) :
  (∀ n, clock n < clock (S n)) →
  tasks (db (serve clock history initial_world)) !! in_task_id body = Some r →
  resumable r →
  ∃ note w' r' latest_notes,
    create_note clock body (serve clock history initial_world) = (Ok note, w')
    ∧ resume w' = (Ok ((in_task_id body, r'), latest_notes), w')
    ∧ tasks (db w') !! in_task_id body = Some r'
    ∧ head latest_notes = Some note.
Proof.
  intros Hstrict Hr Hres.
  set (w := serve clock history initial_world) in *.
  assert (stamped_in_past clock w) as Hpast
    by apply stamped_serve, stamped_initial.
  assert (note_stamps clock w) as Hnotes
    by apply note_stamps_serve, note_stamps_initial.
  rewrite (create_note_run clock body w r Hr). simpl.
  eexists _, _, _, _. split; [done|].
  rewrite (resume_latest _ (in_task_id body)
             (Task.set_updated_at (clock (S (S (ticks w))))
                (Task.set_last_touched_at (clock (S (ticks w))) r))); simpl.
  - split; [done|]. split; [by rewrite lookup_insert_eq|].
    rewrite head_limit_rows_5.
    apply (notes_of_newest _ (next_id (notes (db w)))
             (Note.mk (in_task_id body) (in_content body) (clock (ticks w))
                (py_or (in_kind body) "note"))); simpl.
    + by rewrite lookup_insert_eq.
    + intros j m Hne Hj _. rewrite lookup_insert_ne in Hj by done.
      destruct (Hnotes j m Hj) as (k & Hk & ->). by apply clock_lt.
  - by rewrite lookup_insert_eq.
  - done.
  - intros j t Hne Hj. rewrite lookup_insert_ne in Hj by done.
    destruct (Hpast j t Hj) as (k & Hk & ->). apply clock_lt; [done|lia].
Qed.

Lemma resume_after_create_note_witness :
  let history :=
    [CreateTask (mkTaskIn "Fix token expiry" None None None None None);
     QuickCapture None "Write report" "draft" ""] in
  let body := mkNoteIn 1 "use 15 min TTL" (Some "decision") in
  ∃ r note w' r' latest_notes,
    tasks (db (serve ex_clock history initial_world)) !! 1 = Some r
    ∧ resumable r
    ∧ create_note ex_clock body (serve ex_clock history initial_world)
      = (Ok note, w')
    ∧ resume w' = (Ok ((1, r'), latest_notes), w')
    ∧ tasks (db w') !! 1 = Some r'
    ∧ head latest_notes = Some note.
Proof.
  assert (∀ n, ex_clock n < ex_clock (S n)) as Hs
    by (intros n; unfold ex_clock; lia).
  eexists.
  assert (tasks (db (serve ex_clock
            [CreateTask (mkTaskIn "Fix token expiry" None None None None None);
             QuickCapture None "Write report" "draft" ""] initial_world)) !! 1
          = Some (Task.mk "Fix token expiry" "" "in_progress" "" 2 None
                    1000 1004 1003)) as Hr by (vm_compute; reflexivity).
  assert (resumable (Task.mk "Fix token expiry" "" "in_progress" "" 2 None
                       1000 1004 1003)) as Hres by (right; left; reflexivity).
  destruct (resume_after_create_note ex_clock _
              (mkNoteIn 1 "use 15 min TTL" (Some "decision")) _ Hs Hr Hres)
    as (note & w' & r' & ln & H).
  exists note, w', r', ln. split; [exact Hr|]. split; [exact Hres|]. exact H.
Defined.

Lemma notes_of_single (d : DB) (m : gmap Z Note.t) (i : Z) (n : Note.t) :
  notes d = <[i := n]> m →
  m !! i = None →
  (∀ j x, m !! j = Some x → Note.task_id x ≠ Note.task_id n) →
  notes_of d (Note.task_id n) = [(i, n)].
Proof.
  intros Hd Hi Hnone. unfold notes_of. rewrite Hd.
  apply Permutation_singleton_r.
  rewrite merge_sort_Permutation, (map_to_list_insert m i n Hi).
  rewrite filter_cons_True by done.
  destruct (filter _ (map_to_list m)) as [|[j x] l] eqn:E; [done|].
  assert ((j, x) ∈ filter (λ r : Z * Note.t, Note.task_id r.2 = Note.task_id n)
                     (map_to_list m)) as Hin by (rewrite E; left).
  apply list_elem_of_filter in Hin as [Hid Hin].
  apply elem_of_map_to_list in Hin. by destruct (Hnone j x Hin).
Qed.



Lemma resume_returns_active (w : World) (j : Z) (u : Task.t)
    (ns : list (Z * Note.t)) :
  (resume w).1 = Ok ((j, u), ns) →
  tasks (db w) !! j = Some u ∧ resumable u.
Proof.
  unfold resume, mbind, M_bind, get_db, mret, M_ret, raise. simpl.
  destruct (head _) as [[j' u']|] eqn:E; simpl; [|done].
  intros [= -> -> _].
  apply head_merge_sort_Some in E as [Hin _]; [|apply _..].
  apply list_elem_of_filter in Hin as [Hact Hin].
  split; [by apply elem_of_map_to_list | by apply is_active_resumable].
Qed.



(** ** The order of a task's timestamps *)

Section TaskStamps.
Context (clock : nat → Z) (strict : ∀ n, clock n < clock (S n)).

Ltac run_step :=
  unfold mbind, M_bind, mret, M_ret, get_db, put_db, raise, utcnow; simpl.

Lemma clock_inj_lt (a b : nat) : (a < b)%nat → clock a ≠ clock b.
Proof. intros H. pose proof (clock_lt clock a b strict H). lia. Qed.

(** With a clock that always advances, the touch that ends [create_task] and
    [quick_capture] is written, so the new task ends up with [updated_at]
    one reading after [last_touched_at]. *)
Lemma create_task_stamps (body : TaskIn) (w : World) :
  ∃ r w' (c m : nat),
    create_task clock body w = (Ok (next_id (tasks (db w)), r), w')
    ∧ (c < m)%nat ∧ (S m < ticks w')%nat
    ∧ Task.created_at r = clock c
    ∧ Task.last_touched_at r = clock m
    ∧ Task.updated_at r = clock (S m).
Proof.
  destruct (get_or_create_project_run clock None (in_project_name body) w)
    as (p & s' & w1 & E & _ & _ & _ & _ & -> & Hk & _).
  unfold create_task. run_step. rewrite E. simpl.
  rewrite touch_task_run. simpl. rewrite Hk.
  case_decide as Hc; simpl.
  - injection Hc as Hc. by apply clock_inj_lt in Hc; [|lia].
  - eexists _, _, (ticks w1), (S (S (S (ticks w1)))). split; [done|].
    simpl. split_and!; try done; lia.
Qed.

Lemma quick_capture_stamps (project_name : option string)
    (title description next_action : string) (w : World) :
  ∃ r w' (c m : nat),
    quick_capture clock project_name title description next_action w
      = (Ok (next_id (tasks (db w)), r), w')
    ∧ (c < m)%nat ∧ (S m < ticks w')%nat
    ∧ Task.created_at r = clock c
    ∧ Task.last_touched_at r = clock m
    ∧ Task.updated_at r = clock (S m).
Proof.
  destruct (get_or_create_project_run clock None project_name w)
    as (p & s' & w1 & E & _ & _ & _ & _ & -> & Hk & _).
  unfold quick_capture, commit. run_step. rewrite E. simpl. rewrite Hk.
  destruct (truthy (strip description)); simpl.
  - rewrite flush_run. simpl. rewrite decide_True by done. simpl.
    eexists _, _, (ticks w1), (S (S (S (S (ticks w1))))). split; [done|].
    simpl. split_and!; try done; lia.
  - rewrite touch_task_run. simpl. case_decide as Hc; simpl.
    + injection Hc as Hc. by apply clock_inj_lt in Hc; [|lia].
    + eexists _, _, (ticks w1), (S (S (S (ticks w1)))). split; [done|].
      simpl. split_and!; try done; lia.
Qed.

(** The same for [update_task], when the stored [last_touched_at] is not a
    reading still to come. *)
Lemma update_task_stamps (task_id : Z) (body : TaskPatch) (w : World)
    (r : Task.t) :
  tasks (db w) !! task_id = Some r →
  (∀ k : nat, (ticks w ≤ k)%nat → Task.last_touched_at r ≠ clock k) →
  ∃ r' w' (m : nat),
    update_task clock task_id body w = (Ok (task_id, r'), w')
    ∧ (ticks w ≤ m)%nat ∧ (S m < ticks w')%nat
    ∧ Task.last_touched_at r' = clock m
    ∧ Task.updated_at r' = clock (S m).
Proof.
  intros Hr Hne. unfold update_task. run_step. rewrite Hr.
  destruct (patch_project_name body) as [n|]; run_step.
  - destruct (get_or_create_project_run clock
                (Some (mkObj task_id (Some r) (apply_patch body r))) (Some n) w)
      as (p & s' & w1 & E & _ & Ht & _ & _ & Hs).
    rewrite E. simpl. simpl in Hs.
    destruct Hs as [[-> Hk]|[(-> & Hl & Hk)|(k & Hkr & -> & Hk)]]; simpl;
      try rewrite touch_task_run; simpl; try case_decide; simpl;
      try (eexists _, _, (ticks w1); split; [done|]; simpl;
           split_and!; try done; lia).
    match goal with H : Some r = Some _ |- _ => injection H as H end.
    destruct (Hne (ticks w1) Ht). by rewrite H.
  - rewrite touch_task_run. simpl. case_decide as Hc; simpl.
    + injection Hc as Hc. destruct (Hne (ticks w)); [lia|]. by rewrite Hc.
    + eexists _, _, (ticks w). split; [done|]. simpl.
      split_and!; try done; lia.
Qed.

Lemma task_stamps_write (w w' : World) (id : Z) (r : Task.t) :
  task_stamps clock w →
  (ticks w ≤ ticks w')%nat →
  tasks (db w') = <[id := r]> (tasks (db w)) →
  (∃ c m : nat, (c < m)%nat ∧ (S m < ticks w')%nat
     ∧ Task.created_at r = clock c
     ∧ Task.last_touched_at r = clock m
     ∧ Task.updated_at r = clock (S m)) →
  task_stamps clock w'.
Proof.
  intros Hw Hk Ht Hr i t. rewrite Ht.
  intros [[_ <-]|[_ Hi]]%lookup_insert_Some; [done|].
  destruct (Hw i t Hi) as (c & m & Hcm & Hm & H).
  exists c, m. split_and!; [done|lia|apply H..].
Qed.

Lemma task_stamps_step (req : Request) (w : World) :
  task_stamps clock w → task_stamps clock (handle clock req w).
Proof.
  intros Hw. pose proof (handle_touches clock req w) as [Hticks _].
  assert (∀ w', (ticks w ≤ ticks w')%nat → tasks (db w') ⊆ tasks (db w) →
                task_stamps clock w') as Hsub.
  { intros w' Hk Hs i t Hi.
    destruct (Hw i t (lookup_weaken _ _ _ _ Hi Hs)) as (c & m & Hcm & Hm & H).
    exists c, m. split_and!; [done|lia|apply H..]. }
  destruct req as [pn t d n|n|body| i |i body|body|i l| |i|i]; simpl in *.
  - destruct (quick_capture_run clock pn t d n w) as (r & w' & E & Ht & _).
    destruct (quick_capture_stamps pn t d n w) as (r2 & w2 & c & m & E2 & H).
    rewrite E in *. injection E2 as <- <-. simpl in *.
    eapply task_stamps_write; [done..|]. by exists c, m.
  - destruct (create_project_tasks clock n w) as [Ht Hk].
    apply Hsub; [done|]. by rewrite Ht.
  - destruct (create_task_run clock body w) as (r & w' & E & Ht & _).
    destruct (create_task_stamps body w) as (r2 & w2 & c & m & E2 & H).
    rewrite E in *. injection E2 as <- <-. simpl in *.
    eapply task_stamps_write; [done..|]. by exists c, m.
  - rewrite get_task_run. by destruct (tasks (db w) !! i).
  - destruct (tasks (db w) !! i) as [r|] eqn:Hr;
      [|by rewrite update_task_missing].
    destruct (Hw i r Hr) as (c & m & Hcm & Hm & Hc & Hl & Hu).
    destruct (update_task_run clock i body w r Hr)
      as (r' & w' & E & Ht & _ & _ & _ & _ & _ & _ & _ & _ & Hcr & _).
    destruct (update_task_stamps i body w r Hr)
      as (r2 & w2 & m' & E2 & H1 & H2 & H3 & H4).
    { intros k Hk. rewrite Hl. apply clock_inj_lt. lia. }
    rewrite E in *. injection E2 as <- <-. simpl in *.
    eapply task_stamps_write; [done..|].
    exists c, m'. split_and!; try done; [lia|congruence].
  - destruct (tasks (db w) !! in_task_id body) as [r|] eqn:Hr;
      [|by rewrite create_note_missing].
    destruct (Hw _ r Hr) as (c & m & Hcm & Hm & Hc & Hl & Hu).
    rewrite (create_note_run clock body w r Hr) in *. simpl in *.
    eapply task_stamps_write; [done|simpl; lia|done|]. simpl.
    exists c, (S (ticks w)). split_and!; try done; lia.
  - done.
  - by rewrite resume_world.
  - rewrite delete_task_run in *. destruct (tasks (db w) !! i); [|done].
    apply Hsub; [done|]. simpl. apply delete_subseteq.
  - rewrite delete_note_run in *. by destruct (notes (db w) !! i); [apply Hsub|].
Qed.

(** X16. With a clock that always advances, whatever requests a database has
    served since it was created, every task in it was created before it was
    last touched and last touched before it was last updated:
    [created_at < last_touched_at < updated_at]. *)
Theorem task_timestamps_ordered (history : list Request) (i : Z) (t : Task.t) :
  tasks (db (serve clock history initial_world)) !! i = Some t →
  Task.created_at t < Task.last_touched_at t < Task.updated_at t.
Proof.
  assert (∀ w, task_stamps clock w → task_stamps clock (serve clock history w))
    as H.
  { induction history as [|req reqs IH]; intros w Hw; [done|].
    simpl. apply IH. by apply task_stamps_step. }
  intros Hi. destruct (H initial_world) with (i := i) (t := t)
    as (c & m & Hcm & _ & -> & -> & ->); [|done|].
  - intros j x Hj. simpl in Hj. by rewrite lookup_empty in Hj.
  - split; [by apply clock_lt | apply strict].
Qed.

End TaskStamps.

Lemma task_timestamps_ordered_witness :
  ∃ t,
    tasks (db (serve ex_clock
                 [CreateTask (mkTaskIn "Fix token expiry" None None None None None);
                  CreateNote (mkNoteIn 1 "use 15 min TTL" None)]
                 initial_world)) !! 1 = Some t
    ∧ Task.created_at t < Task.last_touched_at t < Task.updated_at t.
Proof.
  eexists. split; [vm_compute; reflexivity|].
  apply (task_timestamps_ordered ex_clock) with
    (history := [CreateTask (mkTaskIn "Fix token expiry" None None None None None);
                 CreateNote (mkNoteIn 1 "use 15 min TTL" None)]) (i := 1).
  - intros n. unfold ex_clock. lia.
  - vm_compute. reflexivity.
Defined.

(** ** Escaping in the pages *)

Lemma chars_app (a b : string) : chars (a +:+ b) = (chars a ++ chars b)%list.
Proof. induction a as [|c a IH]; simpl; [done|]. by rewrite IH. Qed.

(** The five characters of the pattern, by cases. *)
Lemma special_cases (c : ascii) :
  special c = true →
  c = "&"%char ∨ c = "<"%char ∨ c = ">"%char ∨ c = quote_char ∨ c = "'"%char.
Proof.
  unfold special. rewrite bool_decide_eq_true, !elem_of_cons, elem_of_nil.
  tauto.
Qed.

(** X17. The two ways the pages escape text agree: [esc] of the task page
    (a switch) returns what [escapeHtml] of the home page (an object lookup)
    returns, for every argument, null included. *)
Theorem esc_agrees_with_escapeHtml (s : option string) : esc s = escapeHtml s.
Proof.
  unfold esc, escapeHtml. induction (default "" s) as [|c r IH]; simpl; [done|].
  rewrite IH. f_equal. destruct (special c) eqn:Hc; [|done].
  apply special_cases in Hc as [-> | [-> | [-> | [-> | ->]]]]; reflexivity.
Qed.

(** X18. Escaped text is safe to put into markup: it contains none of the
    characters less-than, greater-than, double quote and single quote, and
    text without the five special characters is returned as it is. *)
Theorem escapeHtml_safe (s : option string) :
  (∀ c, c ∈ chars (escapeHtml s) →
     c ≠ "<"%char ∧ c ≠ ">"%char ∧ c ≠ quote_char ∧ c ≠ "'"%char)
  ∧ (forallb (λ c, negb (special c)) (chars (default "" s)) = true →
     escapeHtml s = default "" s).
Proof.
  unfold escapeHtml. split.
  - induction (default "" s) as [|c r IH]; simpl; intros x Hx.
    + by apply elem_of_nil in Hx.
    + rewrite chars_app in Hx. apply elem_of_app in Hx as [Hx|Hx]; [|by apply IH].
      destruct (special c) eqn:Hc.
      * apply special_cases in Hc as [-> | [-> | [-> | [-> | ->]]]]; simpl in Hx;
          repeat (apply elem_of_cons in Hx as [->|Hx]; [by vm_compute|]);
          by apply elem_of_nil in Hx.
      * simpl in Hx. apply elem_of_cons in Hx as [->|Hx];
          [|by apply elem_of_nil in Hx].
        unfold special in Hc. apply bool_decide_eq_false in Hc.
        rewrite !elem_of_cons, elem_of_nil in Hc. split_and!; intros ->; tauto.
  - induction (default "" s) as [|c r IH]; simpl; [done|].
    intros [Hc Hr]%andb_true_iff. apply negb_true_iff in Hc. rewrite Hc.
    simpl. f_equal. by apply IH.
Qed.

(** ** Notes and the activity timestamp *)

Section NotesBeforeTouch.
Context (clock : nat → Z) (mono : ∀ n, clock n ≤ clock (S n)).

Ltac run_step :=
  unfold mbind, M_bind, mret, M_ret, get_db, put_db, raise, utcnow; simpl.

(** The snapshot note of [quick_capture] is created one reading before the
    touch that ends the capture. *)
Lemma quick_capture_snapshot_order (project_name : option string)
    (title description next_action : string) (w : World) :
  has_non_space description = true →
  ∃ r w' (k : nat),
    quick_capture clock project_name title description next_action w
      = (Ok (next_id (tasks (db w)), r), w')
    ∧ (ticks w ≤ k)%nat
    ∧ tasks (db w') = <[next_id (tasks (db w)) := r]> (tasks (db w))
    ∧ notes (db w')
      = <[next_id (notes (db w)) :=
            Note.mk (next_id (tasks (db w))) description (clock k) "snapshot"]>
          (notes (db w))
    ∧ Task.last_touched_at r = clock (S k).
Proof.
  intros Hd.
  destruct (get_or_create_project_run clock None project_name w)
    as (p & s' & w1 & E & Hn & Ht & _ & _ & -> & Hk & _).
  unfold quick_capture, commit. run_step. rewrite E. simpl.
  rewrite truthy_strip, Hd. simpl.
  rewrite flush_run. simpl. rewrite decide_True by done. simpl.
  rewrite Hk, Hn. eexists _, _, (S (S (S (ticks w1)))). split; [done|].
  simpl. split_and!; [lia|by rewrite insert_insert_eq|done..].
Qed.

Lemma notes_before_touch_write (w : World) (d' : DB) (id : Z) (r : Task.t)
    (l : nat) :
  note_stamps clock w →
  notes_before_touch (db w) →
  tasks d' = <[id := r]> (tasks (db w)) →
  Task.last_touched_at r = clock l →
  (ticks w ≤ l)%nat →
  (∀ i n, notes d' !! i = Some n →
     notes (db w) !! i = Some n
     ∨ Note.task_id n = id ∧ Note.created_at n ≤ Task.last_touched_at r) →
  notes_before_touch d'.
Proof.
  intros Hstamps Hw Ht Hl Hk Hn i n t Hi. rewrite Ht.
  destruct (decide (id = Note.task_id n)) as [<-|Hne].
  - rewrite lookup_insert_eq. intros [= <-].
    destruct (Hn i n Hi) as [Hold|[_ Hnew]]; [|done].
    destruct (Hstamps i n Hold) as (k & Hk' & ->). rewrite Hl.
    apply clock_le; [done|lia].
  - rewrite lookup_insert_ne by done. intros Hj.
    destruct (Hn i n Hi) as [Hold|[Hid _]]; [|congruence]. by eapply Hw.
Qed.

Lemma notes_before_touch_step (req : Request) (w : World) :
  note_stamps clock w →
  notes_before_touch (db w) →
  notes_before_touch (db (handle clock req w)).
Proof.
  intros Hstamps Hw.
  destruct req as [pn t d nm|nm|body| j |j body|body|j l| |j|j]; simpl in *.
  - destruct (has_non_space d) eqn:Hd.
    + destruct (quick_capture_snapshot_order pn t d nm w Hd)
        as (r & w' & k & -> & Hk & Ht & Hn & Hl). simpl.
      eapply (notes_before_touch_write w _ _ r (S k)); [done..|lia|].
      intros i n. rewrite Hn.
      intros [[_ <-]|[_ Hi]]%lookup_insert_Some; [right|by left].
      simpl. rewrite Hl. split; [done|apply mono].
    + destruct (quick_capture_run clock pn t d nm w)
        as (r & w' & -> & Ht & _ & _ & _ & _ & _ & _ & (l & Hl & Hlta) & Hs).
      rewrite Hd in Hs. simpl.
      eapply (notes_before_touch_write w _ _ r l); [done..|lia|].
      intros i n. rewrite Hs. by left.
  - unfold create_project. case_bool_decide; [|done].
    destruct (get_or_create_project_run clock None (Some nm) w)
      as (p & s' & w1 & E & Hn & _ & _ & _ & -> & Ht & _).
    run_step. rewrite E. simpl. unfold notes_before_touch. by rewrite Hn, Ht.
  - destruct (create_task_run clock body w)
      as (r & w' & -> & Ht & Hn & _ & _ & _ & _ & _ & _ & _ & _ & (l & Hl & Hlta)).
    simpl. eapply (notes_before_touch_write w _ _ r l); [done..|lia|].
    intros i n. rewrite Hn. by left.
  - rewrite get_task_run. by destruct (tasks (db w) !! j).
  - destruct (tasks (db w) !! j) as [r|] eqn:Hr;
      [|by rewrite update_task_missing].
    destruct (update_task_run clock j body w r Hr)
      as (r' & w' & -> & Ht & Hn & _ & (l & Hl & Hlta) & _).
    simpl. eapply (notes_before_touch_write w _ _ r' l); [done..|lia|].
    intros i n. rewrite Hn. by left.
  - destruct (tasks (db w) !! in_task_id body) as [r|] eqn:Hr;
      [|by rewrite create_note_missing].
    rewrite (create_note_run clock body w r Hr). simpl.
    eapply (notes_before_touch_write w _ _ _ (S (ticks w)));
      [done|done|done|done|lia|].
    simpl. intros i n [[_ <-]|[_ Hi]]%lookup_insert_Some; [right|by left].
    simpl. split; [done|apply mono].
  - done.
  - by rewrite resume_world.
  - rewrite delete_task_run. destruct (tasks (db w) !! j); [|done].
    unfold notes_before_touch. simpl.
    intros i x y [Hi Hne]%map_lookup_filter_Some [_ Hy]%lookup_delete_Some.
    by eapply Hw.
  - rewrite delete_note_run. destruct (notes (db w) !! j); [|done].
    unfold notes_before_touch. simpl.
    intros i x y [_ Hi]%lookup_delete_Some Hy. by eapply Hw.
Qed.

(** X19. With a clock that does not go back, whatever requests a database has
    served since it was created, no note in it is newer than the
    [last_touched_at] of the task it belongs to. *)
Theorem notes_never_after_last_touch (history : list Request) (i : Z)
    (n : Note.t) (t : Task.t) :
  notes (db (serve clock history initial_world)) !! i = Some n →
  tasks (db (serve clock history initial_world)) !! Note.task_id n = Some t →
  Note.created_at n ≤ Task.last_touched_at t.
Proof.
  assert (∀ w, note_stamps clock w → notes_before_touch (db w) →
               notes_before_touch (db (serve clock history w))) as H.
  { induction history as [|req reqs IH]; intros w Hs Hw; [done|].
    simpl. apply IH.
    - apply (note_stamps_serve clock [req] w Hs).
    - by apply notes_before_touch_step. }
  apply H.
  - apply note_stamps_initial.
  - intros j x y Hj. simpl in Hj. by rewrite lookup_empty in Hj.
Qed.

End NotesBeforeTouch.

Lemma notes_never_after_last_touch_witness :
  ∃ n t,
    notes (db (serve ex_clock
                 [QuickCapture None "Write report" "draft" "";
                  UpdateTask 1 (mkTaskPatch None None None (Some 1) None None)]
                 initial_world)) !! 1 = Some n
    ∧ tasks (db (serve ex_clock
                   [QuickCapture None "Write report" "draft" "";
                    UpdateTask 1 (mkTaskPatch None None None (Some 1) None None)]
                   initial_world)) !! Note.task_id n = Some t
    ∧ Note.created_at n ≤ Task.last_touched_at t.
Proof.
  eexists _, _. split; [vm_compute; reflexivity|].
  split; [vm_compute; reflexivity|].
  apply (notes_never_after_last_touch ex_clock) with
    (history := [QuickCapture None "Write report" "draft" "";
                 UpdateTask 1 (mkTaskPatch None None None (Some 1) None None)])
    (i := 1).
  - intros k. unfold ex_clock. lia.
  - vm_compute. reflexivity.
  - vm_compute. reflexivity.
Defined.
